(** * BlueHorizonDeals: the persistence store and the price-check job

    A shallow embedding of [BlueHorizonDealsbot.py]: the three SQLite tables
    and the helpers that read and write them, and the background job
    [job_check_prices] that decides, per tracked game, whether to alert the
    subscriber.

    Conventions of the embedding.
    - Python integers are [Z]; a value that may be [None] (a nullable
      column, a missing price) is an [option].
    - A table is the list of its rows in insertion order.  The
      [PRIMARY KEY] of the schema is not built into the type: it is
      enforced by the statements, as SQLite does ([INSERT] is rejected on
      a duplicate key, [ON CONFLICT ... DO UPDATE] rewrites the row).
    - The outside world of one polling cycle is a record of oracles
      ([Env]): what the Steam endpoint answers, whether Telegram delivers
      a message or raises, what the clock reads.
    - Stored integers are taken to fit SQLite's INTEGER. *)

From Stdlib Require Import ZArith Lia.
From stdpp Require Import base option list strings pretty.

Open Scope Z_scope.

(** ** Rows and keys *)

(** (user_id, platform, identifier): the primary key of all three tables. *)
Definition Key : Type := Z * string * string.

Record WishlistRow := {
  wl_user_id : Z;
  wl_platform : string;
  wl_identifier : string;
  wl_title : option string
}.

Record TrackingRow := {
  tr_user_id : Z;
  tr_platform : string;
  tr_identifier : string;
  tr_title : option string;
  tr_threshold : Z
}.

Record NotifyRow := {
  ns_user_id : Z;
  ns_platform : string;
  ns_identifier : string;
  last_discount_percent : option Z;
  last_price : option Z;
  last_notified_at : option Z
}.

Definition wl_key (r : WishlistRow) : Key :=
  (wl_user_id r, wl_platform r, wl_identifier r).
Definition tr_key (r : TrackingRow) : Key :=
  (tr_user_id r, tr_platform r, tr_identifier r).
Definition ns_key (r : NotifyRow) : Key :=
  (ns_user_id r, ns_platform r, ns_identifier r).

(** ** The SQL statements the helpers issue *)

Section Table.
Context {Row : Type} (pk : Row → Key).

(** [INSERT INTO t ...] under [PRIMARY KEY(user_id, platform, identifier)]:
    [None] stands for [sqlite3.IntegrityError]. *)
Definition sql_insert (r : Row) (t : list Row) : option (list Row) :=
  if decide (pk r ∈ pk <$> t) then None else Some (t ++ [r]).

(** [DELETE FROM t WHERE user_id=? AND platform=? AND identifier=?];
    the second component is [cur.rowcount]. *)
Definition sql_delete (k : Key) (t : list Row) : list Row * nat :=
  (filter (λ r, pk r ≠ k) t, length (filter (λ r, pk r = k) t)).

(** [SELECT ... WHERE user_id=? AND platform=? AND identifier=?] followed
    by [cur.fetchone()]. *)
Definition sql_fetchone (k : Key) (t : list Row) : option Row :=
  head (filter (λ r, pk r = k) t).

(** [INSERT ... ON CONFLICT(user_id, platform, identifier) DO UPDATE SET ...]:
    [set old] is the conflicting row after the [SET] clause. *)
Definition sql_upsert (r : Row) (set : Row → Row) (t : list Row) : list Row :=
  if decide (pk r ∈ pk <$> t)
  then (λ old, if decide (pk old = pk r) then set old else old) <$> t
  else t ++ [r].
End Table.

(** ** The database: [bot.db] *)

Record DB := {
  wishlist : list WishlistRow;
  tracking : list TrackingRow;
  notify_state : list NotifyRow
}.

(** [db_init] on a fresh file: the three tables, empty. *)
Definition db_init : DB :=
  {| wishlist := []; tracking := []; notify_state := [] |}.

Definition db_add_wishlist (db : DB) (user_id : Z) (platform identifier : string)
    (title : option string) : DB * bool :=
  let row := {| wl_user_id := user_id; wl_platform := platform;
                wl_identifier := identifier; wl_title := title |} in
  match sql_insert wl_key row (wishlist db) with
  | Some t => ({| wishlist := t; tracking := tracking db;
                  notify_state := notify_state db |}, true)
  | None => (db, false)
  end.


Definition db_remove_wishlist (db : DB) (user_id : Z) (platform identifier : string)
    : DB * bool :=
  let '(t, changed) := sql_delete wl_key (user_id, platform, identifier) (wishlist db) in
  ({| wishlist := t; tracking := tracking db; notify_state := notify_state db |},
   bool_decide (0 < changed)%nat).

Definition db_add_tracking (db : DB) (user_id : Z) (platform identifier : string)
    (title : option string) (threshold : Z) : DB * bool :=
  let row := {| tr_user_id := user_id; tr_platform := platform;
                tr_identifier := identifier; tr_title := title;
                tr_threshold := threshold |} in
  match sql_insert tr_key row (tracking db) with
  | Some t => ({| wishlist := wishlist db; tracking := t;
                  notify_state := notify_state db |}, true)
  | None => (db, false)
  end.


Definition db_remove_tracking (db : DB) (user_id : Z) (platform identifier : string)
    : DB * bool :=
  let '(t, changed) := sql_delete tr_key (user_id, platform, identifier) (tracking db) in
  ({| wishlist := wishlist db; tracking := t; notify_state := notify_state db |},
   bool_decide (0 < changed)%nat).

Definition db_get_all_tracked (db : DB) : list TrackingRow := tracking db.

(** The [SET] clause of the upsert: the three [last_*] columns are taken
    from the proposed row ([excluded]), the key columns stay. *)
Definition notify_set (excluded old : NotifyRow) : NotifyRow :=
  {| ns_user_id := ns_user_id old; ns_platform := ns_platform old;
     ns_identifier := ns_identifier old;
     last_discount_percent := last_discount_percent excluded;
     last_price := last_price excluded;
     last_notified_at := last_notified_at excluded |}.

(** [ts] is the reading [int(time.time())] taken inside the helper. *)
Definition db_upsert_notify_state (ts : Z) (db : DB) (user_id : Z)
    (platform identifier : string) (discount_percent : Z) (price : option Z) : DB :=
  let row := {| ns_user_id := user_id; ns_platform := platform;
                ns_identifier := identifier;
                last_discount_percent := Some discount_percent;
                last_price := price;
                last_notified_at := Some ts |} in
  {| wishlist := wishlist db; tracking := tracking db;
     notify_state := sql_upsert ns_key row (notify_set row) (notify_state db) |}.

(** The fetched row is the triple of the selected columns. *)
Definition db_get_notify_state (db : DB) (user_id : Z) (platform identifier : string)
    : option (option Z * option Z * option Z) :=
  (λ r, (last_discount_percent r, last_price r, last_notified_at r))
    <$> sql_fetchone ns_key (user_id, platform, identifier) (notify_state db).

(** ** The price-check job *)

(** What [fetch_steam_appdetails] returns when it does not return [None]:
    a dict with exactly these five keys. *)
Record Info := {
  name : option string;
  discount_percent : Z;
  final_price : option Z;
  original_price : option Z;
  url : string
}.

(** The world as one polling cycle sees it.
    - [fetch_steam_appdetails appid]: what the call returns for [appid];
      every failure inside it has already become [None].
    - [send_message chat_id text]: [true] when [bot.send_message] returns,
      [false] when it raises an [Exception].
    - [time_time user_id platform identifier]: the clock as read while
      that row of [notify_state] is written. *)
Record Env := {
  fetch_steam_appdetails : string → option Info;
  send_message : Z → string → bool;
  time_time : Z → string → string → Z
}.

(** The bot between two steps: the database, and a log of the calls made to
    [send_message] (recipient, text, whether it was delivered). *)
Record Bot := {
  store : DB;
  outbox : list (Z * string * bool)
}.

(** Truth value of an [int]-or-[None] in a Python condition: [None] and [0]
    are false. *)
Definition truthy (v : option Z) : bool :=
  match v with
  | Some n => negb (n =? 0)
  | None => false
  end.

(** [final_price and last_price and final_price < last_price]: the
    comparison is reached only when both operands are truthy. *)
Definition price_dropped (final_price last_price : option Z) : bool :=
  truthy final_price && truthy last_price &&
  match final_price, last_price with
  | Some f, Some l => bool_decide (f < l)
  | _, _ => false
  end.

(** How an f-string renders a title that may be [None]. *)
Definition fmt_title (title : option string) : string := default "None" title.

Definition nl : string := String (Ascii.ascii_of_nat 10) "".

Section Job.
(** [rupees] formats an amount of paise through floating-point division
    and [format]; only its type is used here. *)
Variable rupees : option Z → string.

(** The [if]/[elif] chain of [job_check_prices] that sets [notify] and
    [reason], as a function of [disc], [final_price] and the row [state]
    fetched from [notify_state]. *)
Definition decide_notify (disc : Z) (final_price : option Z)
    (state : option (option Z * option Z * option Z)) : bool * string :=
  let last_disc := state ≫= (λ s, s.1.1) in
  let last_price := state ≫= (λ s, s.1.2) in
  if bool_decide (0 < disc) && bool_decide (last_disc ≠ Some disc) then
    (true, "Discount -" +:+ pretty disc +:+ "%")
  else if price_dropped final_price last_price then
    (true, "Price dropped from " +:+ rupees last_price +:+ " to " +:+ rupees final_price)
  else if bool_decide (last_disc = None) && bool_decide (0 < disc) then
    (true, "Discount -" +:+ pretty disc +:+ "%")
  else
    (false, "").

Definition alert_text (title : option string) (reason : string) (info : Info)
    : string :=
  "ߎ *Price Alert* — " +:+ fmt_title title +:+ nl +:+
  reason +:+ nl +:+
  url info +:+ nl +:+
  "Now: " +:+ rupees (final_price info) +:+
  " (MRP " +:+ rupees (original_price info) +:+ ")".

(** The body of the [for row in rows] loop. *)
Definition check_row (env : Env) (bot : Bot) (row : TrackingRow) : Bot :=
  let user_id := tr_user_id row in
  let plat := tr_platform row in
  let ident := tr_identifier row in
  let title := tr_title row in
  let threshold := tr_threshold row in
  if decide (plat ≠ "steam") then bot else
  match fetch_steam_appdetails env ident with
  | None => bot
  | Some info =>
    let disc := discount_percent info in
    let final_price := final_price info in
    let state := db_get_notify_state (store bot) user_id plat ident in
    let '(notify, reason) := decide_notify disc final_price state in
    let ts := time_time env user_id plat ident in
    if notify then
      let txt := alert_text title reason info in
      {| store := db_upsert_notify_state ts (store bot) user_id plat ident disc final_price;
         outbox := outbox bot ++ [(user_id, txt, send_message env user_id txt)] |}
    else
      match state with
      | None =>
        {| store := db_upsert_notify_state ts (store bot) user_id plat ident disc final_price;
           outbox := outbox bot |}
      | Some _ => bot
      end
  end.

Definition job_check_prices (env : Env) (bot : Bot) : Bot :=
  foldl (check_row env) bot (db_get_all_tracked (store bot)).

(** ** The store's entry points, as one step function *)

Inductive Op :=
| AddWishlist (user_id : Z) (platform identifier : string) (title : option string)
| RemoveWishlist (user_id : Z) (platform identifier : string)
| AddTracking (user_id : Z) (platform identifier : string) (title : option string)
    (threshold : Z)
| RemoveTracking (user_id : Z) (platform identifier : string)
| UpsertNotifyState (ts : Z) (user_id : Z) (platform identifier : string)
    (discount_percent : Z) (price : option Z)
| CheckPrices (env : Env).

Definition run_op (op : Op) (bot : Bot) : Bot :=
  match op with
  | AddWishlist u p i t =>
    {| store := (db_add_wishlist (store bot) u p i t).1; outbox := outbox bot |}
  | RemoveWishlist u p i =>
    {| store := (db_remove_wishlist (store bot) u p i).1; outbox := outbox bot |}
  | AddTracking u p i t th =>
    {| store := (db_add_tracking (store bot) u p i t th).1; outbox := outbox bot |}
  | RemoveTracking u p i =>
    {| store := (db_remove_tracking (store bot) u p i).1; outbox := outbox bot |}
  | UpsertNotifyState ts u p i d pr =>
    {| store := db_upsert_notify_state ts (store bot) u p i d pr; outbox := outbox bot |}
  | CheckPrices env => job_check_prices env bot
  end.
End Job.

(** ** The decision rules as the specification words them *)

(** [last] is the stored state when there is one: its discount percent and
    its price, either of which may be missing. *)
Definition rule1 (disc : Z) (last : option (option Z * option Z)) : bool :=
  bool_decide (last = None) && bool_decide (0 < disc).

Definition rule2 (disc : Z) (last : option (option Z * option Z)) : bool :=
  match last with
  | Some (last_disc, _) => bool_decide (Some disc ≠ last_disc) && bool_decide (0 < disc)
  | None => false
  end.

Definition rule3 (final_price : option Z) (last : option (option Z * option Z)) : bool :=
  match final_price, last with
  | Some f, Some (_, Some l) => bool_decide (f < l)
  | _, _ => false
  end.

(** Priority order 1, 2, 3, else no-op; [true] is notify. *)
Definition spec_decision (disc : Z) (final_price : option Z)
    (last : option (option Z * option Z)) : bool :=
  if rule1 disc last then true
  else if rule2 disc last then true
  else if rule3 final_price last then true
  else false.

(** The row of [notify_state] without its timestamp. *)
Definition last_of (state : option (option Z * option Z * option Z))
    : option (option Z * option Z) :=
  (λ s, (s.1.1, s.1.2)) <$> state.

(** At most one row of [notify_state] per key. *)
Definition notify_state_unique (db : DB) : Prop :=
  NoDup (ns_key <$> notify_state db).

(** ** Auxiliary notions used in the statements *)

(** The same world, except for what Telegram does with a message. *)
Definition with_send_message (env : Env) (d : Z → string → bool) : Env :=
  {| fetch_steam_appdetails := fetch_steam_appdetails env;
     send_message := d;
     time_time := time_time env |}.

(** Two rows of [tracking] that agree on every column but [threshold]. *)
Definition same_but_threshold (r r' : TrackingRow) : Prop :=
  tr_user_id r = tr_user_id r' ∧ tr_platform r = tr_platform r' ∧
  tr_identifier r = tr_identifier r' ∧ tr_title r = tr_title r'.

(** Two bots that agree on what the loop reads and writes: [notify_state]
    and the outbox. *)
Definition same_view (b b' : Bot) : Prop :=
  notify_state (store b) = notify_state (store b') ∧ outbox b = outbox b'.

(** The bot with one entry deleted from [tracking]. *)
Definition untracked (bot : Bot) (user_id : Z) (platform identifier : string) : Bot :=
  {| store := (db_remove_tracking (store bot) user_id platform identifier).1;
     outbox := outbox bot |}.

(** ** A worked configuration: one subscriber, one game *)

Module Sample.
(** A formatter to put in the place of [rupees] when a statement is
    evaluated: whole rupees, no grouping. *)
Definition whole_rupees (paise : option Z) : string :=
  match paise with
  | None => "-"
  | Some p => "Rs " +:+ pretty (p / 100)
  end.

Definition alice : Z := 42.

Definition snapshot (disc : Z) (final initial : option Z) : Info :=
  {| name := Some "Dota 2"; discount_percent := disc; final_price := final;
     original_price := initial;
     url := "https://store.steampowered.com/app/570" |}.

(** Steam answers for app 570 only; Telegram delivers iff [ok]. *)
Definition world (answer : option Info) (ok : bool) (now : Z) : Env :=
  {| fetch_steam_appdetails := λ appid, if decide (appid = "570") then answer else None;
     send_message := λ _ _, ok;
     time_time := λ _ _ _, now |}.

Definition dota : TrackingRow :=
  {| tr_user_id := alice; tr_platform := "steam"; tr_identifier := "570";
     tr_title := Some "Dota 2"; tr_threshold := 0 |}.

(** After [/trackprice 570] on a fresh database: [tracking] holds [dota]. *)
Definition tracking_dota : Bot :=
  {| store := (db_add_tracking db_init alice "steam" "570" (Some "Dota 2") 0).1;
     outbox := [] |}.

(** The same, with a state row already recorded for the game. *)
Definition with_state (disc : Z) (price : option Z) : Bot :=
  {| store := db_upsert_notify_state 1700000000 (store tracking_dota)
                alice "steam" "570" disc price;
     outbox := [] |}.

(** The same subscription stored with another threshold. *)
Definition tracking_dota_at (threshold : Z) : Bot :=
  {| store := (db_add_tracking db_init alice "steam" "570" (Some "Dota 2") threshold).1;
     outbox := [] |}.

(** 10% off, 900 paise instead of 1000. *)
Definition sale10 : Info := snapshot 10 (Some 900) (Some 1000).
(** 25% off, 750 paise. *)
Definition sale25 : Info := snapshot 25 (Some 750) (Some 1000).
(** No discount, 500 paise. *)
Definition full_price : Info := snapshot 0 (Some 500) (Some 500).

(** Steam answers [info] for app 570, Telegram delivers, the clock reads [now]. *)
Definition poll (info : Info) (now : Z) : Env := world (Some info) true now.

(** Two more subscriptions, one of them to a game Steam does not answer for. *)
Definition three_games : Bot :=
  {| store := (db_add_tracking
                 (db_add_tracking (store tracking_dota) alice "steam" "730"
                    (Some "Counter-Strike 2") 0).1
                 7 "steam" "570" (Some "Dota 2") 5).1;
     outbox := [] |}.
End Sample.

(** ** The command surface: reading a game out of a command's text *)

(** Python's [str.strip], [str.isdigit] and the class [\d] of [re] look at
    Unicode properties.  On text of ASCII characters they are the functions
    below: the digits are [0]-[9], the whitespace characters are 9-13, 28-31
    and 32.  The statements about them are made for such text. *)

Section Text.
Import Stdlib.Strings.Ascii.

Fixpoint all_chars (p : ascii → bool) (s : string) : bool :=
  match s with
  | "" => true
  | String c s' => p c && all_chars p s'
  end.

Definition is_ascii (c : ascii) : bool := (nat_of_ascii c <? 128)%nat.
Definition ascii_text (s : string) : Prop := all_chars is_ascii s = true.

Definition is_digit (c : ascii) : bool :=
  (48 <=? nat_of_ascii c)%nat && (nat_of_ascii c <=? 57)%nat.

Definition is_space (c : ascii) : bool :=
  ((9 <=? nat_of_ascii c)%nat && (nat_of_ascii c <=? 13)%nat) ||
  ((28 <=? nat_of_ascii c)%nat && (nat_of_ascii c <=? 32)%nat).

(** [text.isdigit()]: at least one character, and digits only. *)
Definition isdigit (s : string) : bool :=
  match s with
  | "" => false
  | _ => all_chars is_digit s
  end.

Fixpoint lstrip (s : string) : string :=
  match s with
  | "" => ""
  | String c s' => if is_space c then lstrip s' else s
  end.

Fixpoint rstrip (s : string) : string :=
  match s with
  | "" => ""
  | String c s' =>
    match rstrip s' with
    | "" => if is_space c then "" else String c ""
    | r => String c r
    end
  end.

(** [text.strip()] *)
Definition strip (s : string) : string := rstrip (lstrip s).

(** What follows [p] in [s] when [s] starts with [p]. *)
Fixpoint strip_prefix (p s : string) : option string :=
  match p, s with
  | "", _ => Some s
  | String a p', String b s' => if decide (a = b) then strip_prefix p' s' else None
  | String _ _, "" => None
  end.

(** The longest run of digits at the start of [s], and what follows it. *)
Fixpoint take_digits (s : string) : string :=
  match s with
  | "" => ""
  | String c s' => if is_digit c then String c (take_digits s') else ""
  end.

Fixpoint drop_digits (s : string) : string :=
  match s with
  | "" => ""
  | String c s' => if is_digit c then drop_digits s' else s
  end.

(** [re.search]: the match at the leftmost position where there is one;
    [here s] is the group of the match that starts at the head of [s]. *)
Fixpoint re_search (here : string → option string) (s : string) : option string :=
  match here s with
  | Some m => Some m
  | None =>
    match s with
    | "" => None
    | String _ s' => re_search here s'
    end
  end.

(** [store\.steampowered\.com\/app\/(\d+)] at the head of [s]. *)
Definition app_url_here (s : string) : option string :=
  match strip_prefix "store.steampowered.com/app/" s with
  | Some rest =>
    match take_digits rest with
    | "" => None
    | ds => Some ds
    end
  | None => None
  end.

(** [\((\d{3,7})\)$] at the head of [s]; the text it is applied to has been
    stripped, so [$] is the end of the text. *)
Definition paren_id_here (s : string) : option string :=
  match s with
  | String "(" rest =>
    let ds := take_digits rest in
    if (3 <=? String.length ds)%nat && (String.length ds <=? 7)%nat &&
       bool_decide (drop_digits rest = ")")
    then Some ds else None
  | _ => None
  end.

Definition parse_steam_appid (text : string) : option string :=
  let text := strip text in
  match re_search app_url_here text with
  | Some m => Some m
  | None =>
    if isdigit text then Some text
    else re_search paren_id_here text
  end.

(** The pair (platform, identifier); [(None, None)] for an empty text. *)
Definition normalize_identifier (text : string) : option string * option string :=
  match text with
  | "" => (None, None)
  | _ =>
    let text := strip text in
    match parse_steam_appid text with
    | Some (String c appid) => (Some "steam", Some (String c appid))
    | _ => (Some "other", Some text)
    end
  end.
End Text.



(** ** The command handlers that write the store

    A handler is given the world (for the title lookup), the database, the
    id of the user and the words after the command; it returns the database
    and the text of its one reply.  A platform or identifier that is [None]
    violates [NOT NULL] on insert ([sqlite3.IntegrityError], hence [False])
    and matches no row on delete. *)











(** ** The bot over time *)






(** ** Notions used in the further properties *)

(** Two worlds in which Steam answers alike. *)
Definition same_answers (env env' : Env) : Prop :=
  ∀ appid, fetch_steam_appdetails env appid = fetch_steam_appdetails env' appid.

(** At most one row of [wishlist], and of [tracking], per key. *)
Definition wishlist_unique (db : DB) : Prop := NoDup (wl_key <$> wishlist db).
Definition tracking_unique (db : DB) : Prop := NoDup (tr_key <$> tracking db).

(** A row on which a turn of the loop has nothing to do: it is not a Steam
    row, or Steam has no answer for it, or its state row is there and the
    chain decides no-op. *)
Definition calm (rupees : option Z → string) (env : Env) (bot : Bot)
    (row : TrackingRow) : Prop :=
  tr_platform row ≠ "steam" ∨
  fetch_steam_appdetails env (tr_identifier row) = None ∨
  ∃ info s,
    fetch_steam_appdetails env (tr_identifier row) = Some info ∧
    db_get_notify_state (store bot) (tr_user_id row) (tr_platform row)
      (tr_identifier row) = Some s ∧
    (decide_notify rupees (discount_percent info) (final_price info) (Some s)).1 = false.

(** * Properties *)

(** ** Facts about the SQL statements *)

Section TableFacts.
Context {Row : Type} (pk : Row → Key).
Implicit Types (t : list Row) (r : Row) (k : Key).

Lemma sql_fetchone_None k t : sql_fetchone pk k t = None ↔ k ∉ pk <$> t.
Proof.
  unfold sql_fetchone. induction t as [|x t IH]; simpl.
  - split; [intros _; apply not_elem_of_nil | done].
  - rewrite filter_cons, not_elem_of_cons. destruct (decide (pk x = k)) as [E|E]; simpl.
    + split; [done | intros [Hk _]; congruence].
    + rewrite IH. split; [intros ?; split; [congruence|done] | intros [_ ?]; done].
Qed.

Lemma sql_fetchone_Some k t r :
  sql_fetchone pk k t = Some r → r ∈ t ∧ pk r = k.
Proof.
  unfold sql_fetchone. intros H. apply head_Some_elem_of in H.
  apply list_elem_of_filter in H. tauto.
Qed.

Lemma sql_fetchone_fmap (f : Row → Row) k t :
  (∀ x, pk (f x) = pk x) →
  sql_fetchone pk k (f <$> t) = f <$> sql_fetchone pk k t.
Proof.
  intros Hf. unfold sql_fetchone. induction t as [|x t IH]; [done|].
  rewrite fmap_cons, !filter_cons, Hf. case_decide; [done | apply IH].
Qed.

Lemma sql_fetchone_is_Some k t : is_Some (sql_fetchone pk k t) ↔ k ∈ pk <$> t.
Proof.
  destruct (sql_fetchone pk k t) as [r|] eqn:E.
  - apply sql_fetchone_Some in E as [Hr <-].
    split; [intros _; by apply list_elem_of_fmap_2 | eauto].
  - apply sql_fetchone_None in E. split; [intros [? ?]; done | done].
Qed.

Lemma sql_insert_None r t : sql_insert pk r t = None ↔ pk r ∈ pk <$> t.
Proof. unfold sql_insert. case_decide; split; done. Qed.

Lemma sql_insert_Some r t t' :
  sql_insert pk r t = Some t' ↔ (pk r ∉ pk <$> t) ∧ t' = t ++ [r].
Proof.
  unfold sql_insert. case_decide; split; try done.
  - intros [? _]; done.
  - intros [= <-]; done.
  - intros [_ ->]; done.
Qed.

Lemma sql_delete_rowcount k t : (0 < (sql_delete pk k t).2)%nat ↔ k ∈ pk <$> t.
Proof.
  unfold sql_delete; simpl. rewrite <- sql_fetchone_is_Some. unfold sql_fetchone.
  destruct (filter _ t); simpl; split; try lia; try (intros [? ?]; done); eauto.
Qed.

Lemma sql_delete_gone k t : k ∉ pk <$> (sql_delete pk k t).1.
Proof.
  unfold sql_delete; simpl. intros (r & -> & Hr)%list_elem_of_fmap.
  apply list_elem_of_filter in Hr. tauto.
Qed.

Lemma sql_delete_other k k' t :
  k' ≠ k → sql_fetchone pk k' (sql_delete pk k t).1 = sql_fetchone pk k' t.
Proof.
  intros Hne. unfold sql_delete, sql_fetchone; simpl. f_equal.
  induction t as [|x t IH]; [done|].
  rewrite !filter_cons.
  destruct (decide (pk x ≠ k)) as [E|E].
  - rewrite filter_cons. case_decide; by rewrite IH.
  - rewrite decide_False; [done|]. intros Hk'. apply E. intros Hk. congruence.
Qed.

Lemma sql_delete_absent k t : k ∉ pk <$> t → (sql_delete pk k t).1 = t.
Proof.
  unfold sql_delete; simpl. induction t as [|x t IH]; [done|].
  rewrite fmap_cons, not_elem_of_cons. intros [Hx Ht].
  rewrite filter_cons. case_decide; [by rewrite IH | congruence].
Qed.

Section Upsert.
Context (set : Row → Row) (set_pk : ∀ old, pk (set old) = pk old).

Lemma sql_upsert_keys r t :
  pk <$> sql_upsert pk r set t =
  if decide (pk r ∈ pk <$> t) then pk <$> t else (pk <$> t) ++ [pk r].
Proof.
  unfold sql_upsert. case_decide; [|by rewrite fmap_app].
  rewrite <- list_fmap_compose. apply list_fmap_ext. intros _ x _. simpl.
  case_decide; [apply set_pk | done].
Qed.

Lemma sql_upsert_NoDup r t :
  NoDup (pk <$> t) → NoDup (pk <$> sql_upsert pk r set t).
Proof.
  intros Hnd. rewrite sql_upsert_keys. case_decide; [done|].
  apply NoDup_app. split_and!; [done| |apply NoDup_singleton].
  intros k Hk ->%list_elem_of_singleton. done.
Qed.

Lemma sql_upsert_other r t k :
  k ≠ pk r → sql_fetchone pk k (sql_upsert pk r set t) = sql_fetchone pk k t.
Proof.
  intros Hne. unfold sql_upsert, sql_fetchone. case_decide.
  - f_equal. clear H. induction t as [|x t IH]; [done|].
    rewrite fmap_cons, !filter_cons.
    destruct (decide (pk x = pk r)) as [E|E].
    + rewrite decide_False by (rewrite set_pk; congruence).
      rewrite decide_False by congruence. done.
    + case_decide; by rewrite IH.
  - rewrite filter_app, filter_cons, decide_False by congruence.
    by rewrite filter_nil, app_nil_r.
Qed.

Lemma sql_upsert_fetch r t :
  sql_fetchone pk (pk r) (sql_upsert pk r set t) =
  Some (from_option set r (sql_fetchone pk (pk r) t)).
Proof.
  unfold sql_upsert. case_decide as Hin.
  - rewrite sql_fetchone_fmap by (intros x; case_decide; [apply set_pk | done]).
    apply sql_fetchone_is_Some in Hin as [old Hold]. rewrite Hold. simpl.
    apply sql_fetchone_Some in Hold as [_ Hk]. by rewrite decide_True.
  - apply sql_fetchone_None in Hin as Hn. rewrite Hn. simpl.
    unfold sql_fetchone in *. apply head_None in Hn.
    by rewrite filter_app, Hn, filter_cons, decide_True.
Qed.
End Upsert.
End TableFacts.

(** ** Facts about [notify_state] *)

Lemma notify_set_key (excluded old : NotifyRow) :
  ns_key (notify_set excluded old) = ns_key old.
Proof. reflexivity. Qed.

Lemma get_after_upsert ts db u p i d pr :
  db_get_notify_state (db_upsert_notify_state ts db u p i d pr) u p i
  = Some (Some d, pr, Some ts).
Proof.
  unfold db_get_notify_state, db_upsert_notify_state; simpl.
  set (row := {| ns_user_id := u; ns_platform := p; ns_identifier := i;
                 last_discount_percent := Some d; last_price := pr;
                 last_notified_at := Some ts |}).
  change (u, p, i) with (ns_key row).
  rewrite sql_upsert_fetch by apply notify_set_key.
  by destruct (sql_fetchone ns_key (ns_key row) (notify_state db)).
Qed.

Lemma get_after_upsert_other ts db u p i d pr u' p' i' :
  (u', p', i') ≠ (u, p, i) →
  db_get_notify_state (db_upsert_notify_state ts db u p i d pr) u' p' i'
  = db_get_notify_state db u' p' i'.
Proof.
  intros Hne. unfold db_get_notify_state, db_upsert_notify_state; simpl.
  by rewrite sql_upsert_other by (apply notify_set_key || exact Hne).
Qed.

Lemma upsert_unique ts db u p i d pr :
  notify_state_unique db →
  notify_state_unique (db_upsert_notify_state ts db u p i d pr).
Proof. apply sql_upsert_NoDup, notify_set_key. Qed.

Lemma get_notify_state_None db u p i :
  db_get_notify_state db u p i = None ↔ (u, p, i) ∉ ns_key <$> notify_state db.
Proof.
  unfold db_get_notify_state. rewrite fmap_None. apply sql_fetchone_None.
Qed.

(** ** Facts about one turn of the loop *)

Section JobFacts.
Variable rupees : option Z → string.
Implicit Types (env : Env) (bot : Bot) (row : TrackingRow).

(** What [check_row] does to a Steam row whose fetch succeeded. *)
Lemma check_row_fetched env bot row info :
  tr_platform row = "steam" →
  fetch_steam_appdetails env (tr_identifier row) = Some info →
  check_row rupees env bot row =
  let state := db_get_notify_state (store bot) (tr_user_id row) "steam"
                 (tr_identifier row) in
  let verdict := decide_notify rupees (discount_percent info) (final_price info) state in
  let written := db_upsert_notify_state
                   (time_time env (tr_user_id row) "steam" (tr_identifier row))
                   (store bot) (tr_user_id row) "steam" (tr_identifier row)
                   (discount_percent info) (final_price info) in
  if verdict.1 then
    let txt := alert_text rupees (tr_title row) verdict.2 info in
    {| store := written;
       outbox := outbox bot ++ [(tr_user_id row, txt, send_message env (tr_user_id row) txt)] |}
  else if state is None then {| store := written; outbox := outbox bot |}
  else bot.
Proof.
  intros Hp Hf. unfold check_row. rewrite Hp, Hf.
  rewrite decide_False by (intros H; by apply H). simpl.
  by destruct (decide_notify _ _ _ _) as [[] ?].
Qed.

Lemma check_row_skipped env bot row :
  tr_platform row ≠ "steam" ∨ fetch_steam_appdetails env (tr_identifier row) = None →
  check_row rupees env bot row = bot.
Proof.
  intros [Hp|Hf]; unfold check_row.
  - by rewrite decide_True.
  - rewrite Hf. by case_decide.
Qed.

(** A turn of the loop writes [notify_state] only, through the upsert,
    and only at the key of its row. *)
Lemma check_row_store env bot row :
  store (check_row rupees env bot row) = store bot ∨
  ∃ ts d pr,
    store (check_row rupees env bot row) =
    db_upsert_notify_state ts (store bot) (tr_user_id row) (tr_platform row)
      (tr_identifier row) d pr.
Proof.
  unfold check_row. case_decide; [by left|].
  destruct (fetch_steam_appdetails env _) as [info|]; [|by left].
  destruct (decide_notify _ _ _ _) as [[] ?]; simpl; [right; eauto|].
  destruct (db_get_notify_state _ _ _ _); [by left | right; eauto].
Qed.

Lemma check_row_tables env bot row :
  wishlist (store (check_row rupees env bot row)) = wishlist (store bot) ∧
  tracking (store (check_row rupees env bot row)) = tracking (store bot).
Proof.
  destruct (check_row_store env bot row) as [->|(ts & d & pr & ->)]; done.
Qed.

Lemma check_row_unique env bot row :
  notify_state_unique (store bot) →
  notify_state_unique (store (check_row rupees env bot row)).
Proof.
  intros H. destruct (check_row_store env bot row) as [->|(ts & d & pr & ->)];
    [done | by apply upsert_unique].
Qed.

Lemma check_row_other_key env bot row u p i :
  tr_key row ≠ (u, p, i) →
  db_get_notify_state (store (check_row rupees env bot row)) u p i
  = db_get_notify_state (store bot) u p i.
Proof.
  intros Hne. destruct (check_row_store env bot row) as [->|(ts & d & pr & ->)];
    [done|]. apply get_after_upsert_other. intros E. apply Hne. symmetry. exact E.
Qed.

Lemma check_rows_unique env rows bot :
  notify_state_unique (store bot) →
  notify_state_unique (store (foldl (check_row rupees env) bot rows)).
Proof.
  revert bot. induction rows as [|row rows IH]; intros bot H; simpl; [done|].
  by apply IH, check_row_unique.
Qed.
End JobFacts.

(** ** The decision against the four rules *)

(** Away from the price 0 the chain of [job_check_prices] and the four rules
    decide alike. *)
Lemma decide_notify_agrees_off_zero rupees disc final_price state :
  final_price ≠ Some 0 →
  (∀ s, state = Some s → s.1.2 ≠ Some 0) →
  (decide_notify rupees disc final_price state).1
  = spec_decision disc final_price (last_of state).
Proof.
  intros Hf Hl.
  assert (Hl' : ∀ d l t, state = Some (d, l, t) → l ≠ Some 0)
    by (intros d l t E; exact (Hl _ E)).
  clear Hl. unfold decide_notify, spec_decision, rule1, rule2, rule3, price_dropped.
  destruct state as [[[d l] t]|]; simpl.
  - specialize (Hl' d l t eq_refl).
    destruct final_price as [f|], l as [l|]; simpl;
      try destruct (Z.eqb_spec f 0); try destruct (Z.eqb_spec l 0); simpl;
      repeat case_bool_decide; simpl; try done; congruence.
  - destruct final_price as [f|]; simpl; repeat case_bool_decide; simpl;
      try done; rewrite ?andb_false_r; done.
Qed.

(** The third branch of the chain, when neither price is 0. *)
Lemma price_drop_notifies_off_zero rupees disc f l last_disc t :
  ¬ (0 < disc ∧ last_disc ≠ Some disc) →
  f ≠ 0 → l ≠ 0 → f < l →
  decide_notify rupees disc (Some f) (Some (last_disc, Some l, t))
  = (true, "Price dropped from " +:+ rupees (Some l) +:+ " to " +:+ rupees (Some f)).
Proof.
  intros Hno Hf Hl Hlt. unfold decide_notify, price_dropped; simpl.
  destruct (Z.eqb_spec f 0), (Z.eqb_spec l 0); try done.
  repeat case_bool_decide; simpl; try done; exfalso; apply Hno; done.
Qed.

(** C1. The claim: for every snapshot and every prior state the job's
    notify/no-op decision is the one the four rules give.  The code departs
    from it where a price is 0: with stored state (0%, 500) and a snapshot
    at 0% and final price 0, rule 3 fires (0 < 500), and the chain of
    [job_check_prices] does not notify, its test [final_price and last_price]
    being false for the number 0. *)
Theorem decision_departs_from_rules_at_zero_price (rupees : option Z → string) :
  (decide_notify rupees 0 (Some 0) (Some (Some 0, Some 500, Some 1700000000))).1 = false ∧
  spec_decision 0 (Some 0) (last_of (Some (Some 0, Some 500, Some 1700000000))) = true.
Proof. split; reflexivity. Qed.

(** C3. The claim: a strictly lower final price, both prices present and no
    earlier rule firing, is notified as a price drop, also when a price is 0.
    Run on the worked configuration with stored state (20%, 500) and a fetched
    snapshot at 20% and final price 0, the job sends nothing and leaves
    everything as it was. *)
Theorem price_drop_to_zero_is_silent (rupees : option Z → string) (ok : bool) :
  job_check_prices rupees
    (Sample.world (Some (Sample.snapshot 20 (Some 0) (Some 625))) ok 1700003600)
    (Sample.with_state 20 (Some 500))
  = Sample.with_state 20 (Some 500).
Proof. reflexivity. Qed.

(** ** What a turn of the loop does to the state and the outbox *)

Section Decisions.
Variable rupees : option Z → string.
Implicit Types (env : Env) (bot : Bot) (row : TrackingRow) (info : Info).

(** The state row the job reads for [row]. *)
Local Abbreviation state_of bot row :=
  (db_get_notify_state (store bot) (tr_user_id row) (tr_platform row)
     (tr_identifier row)).
(** The notify flag the chain computes for [row] and snapshot [info]. *)
Local Abbreviation notifies bot row info :=
  ((decide_notify rupees (discount_percent info) (final_price info)
      (state_of bot row)).1).
(** The row as written from snapshot [info] under [env]. *)
Local Abbreviation recorded env row info :=
  (Some (Some (discount_percent info), final_price info,
         Some (time_time env (tr_user_id row) (tr_platform row) (tr_identifier row)))).

(** C2. Whenever the decision is notify, the state row of the key holds the
    snapshot's discount percent and final price and the fresh timestamp,
    whatever [send_message] does: the store after the turn is the same for
    every behaviour [d] of the delivery, also one that always raises. *)
Theorem notify_commits_state_whatever_delivery env bot row info
    (d : Z → string → bool) :
  tr_platform row = "steam" →
  fetch_steam_appdetails env (tr_identifier row) = Some info →
  notifies bot row info = true →
  let bot' := check_row rupees (with_send_message env d) bot row in
  state_of bot' row = recorded env row info ∧
  store bot' = store (check_row rupees env bot row) ∧
  ∃ txt, outbox bot' = outbox bot ++ [(tr_user_id row, txt, d (tr_user_id row) txt)].
Proof.
  intros Hp Hf Hn bot'. subst bot'.
  rewrite !(check_row_fetched _ _ _ _ info) by done.
  rewrite Hp in *. simpl. rewrite Hn. simpl.
  split_and!; [apply get_after_upsert | done | eauto].
Qed.

(** C4. After a snapshot has produced a notify, the same snapshot met again
    (in the same or a later cycle [env']) decides no-op: no message is sent
    and nothing is written. *)
Theorem same_snapshot_twice_notifies_once env env' bot row info :
  tr_platform row = "steam" →
  fetch_steam_appdetails env (tr_identifier row) = Some info →
  fetch_steam_appdetails env' (tr_identifier row) = Some info →
  notifies bot row info = true →
  let bot' := check_row rupees env bot row in
  notifies bot' row info = false ∧
  check_row rupees env' bot' row = bot'.
Proof.
  intros Hp Hf Hf' Hn bot'.
  assert (Hst : state_of bot' row = recorded env row info).
  { subst bot'. rewrite (check_row_fetched _ _ _ _ info) by done.
    rewrite Hp in *. simpl. rewrite Hn. simpl. apply get_after_upsert. }
  assert (Hno : notifies bot' row info = false).
  { rewrite Hst. unfold decide_notify, price_dropped; simpl.
    rewrite (bool_decide_eq_false_2 (Some _ ≠ Some _)) by (intros H; by apply H).
    rewrite andb_false_r.
    destruct (final_price info) as [f|]; simpl; [|done].
    rewrite (bool_decide_eq_false_2 (f < f)) by lia.
    by rewrite andb_false_r. }
  split; [exact Hno|].
  rewrite (check_row_fetched _ _ _ _ info) by done.
  rewrite Hp in *. simpl. rewrite Hno, Hst. done.
Qed.

(** C5. With no state row for the key and a positive discount, the decision
    is notify, one message goes out to the subscriber, and the state row
    afterwards holds the snapshot's discount percent and final price. *)
Theorem first_discount_notifies_and_records env bot row info :
  tr_platform row = "steam" →
  fetch_steam_appdetails env (tr_identifier row) = Some info →
  state_of bot row = None →
  0 < discount_percent info →
  let bot' := check_row rupees env bot row in
  notifies bot row info = true ∧
  (∃ txt, outbox bot' =
          outbox bot ++ [(tr_user_id row, txt, send_message env (tr_user_id row) txt)]) ∧
  state_of bot' row = recorded env row info.
Proof.
  intros Hp Hf Hs Hd bot'.
  assert (Hn : notifies bot row info = true).
  { rewrite Hs. unfold decide_notify; simpl.
    by rewrite bool_decide_eq_true_2 by lia. }
  split; [exact Hn|]. subst bot'.
  rewrite (check_row_fetched _ _ _ _ info) by done.
  rewrite Hp in *. simpl. rewrite Hn. simpl.
  split; [eauto | apply get_after_upsert].
Qed.

(** C6. On a no-op with a state row present the turn changes nothing at
    all; on a no-op with no state row the snapshot is recorded and no
    message is sent; and a discount that went from a positive value to 0
    with no lower price is such a no-op. *)
Theorem noop_leaves_state_or_bootstraps env bot row info :
  tr_platform row = "steam" →
  fetch_steam_appdetails env (tr_identifier row) = Some info →
  let bot' := check_row rupees env bot row in
  (notifies bot row info = false → is_Some (state_of bot row) → bot' = bot) ∧
  (notifies bot row info = false → state_of bot row = None →
     outbox bot' = outbox bot ∧ state_of bot' row = recorded env row info) ∧
  (∀ last_disc last_price t,
     state_of bot row = Some (Some last_disc, last_price, t) →
     0 < last_disc → discount_percent info = 0 →
     (∀ f l, final_price info = Some f → last_price = Some l → l ≤ f) →
     notifies bot row info = false ∧ bot' = bot).
Proof.
  intros Hp Hf bot'. subst bot'.
  rewrite (check_row_fetched _ _ _ _ info) by done.
  rewrite Hp in *. simpl.
  split_and!.
  - intros -> [s Hs]. by rewrite Hs.
  - intros -> ->. simpl. split; [done | apply get_after_upsert].
  - intros last_disc last_price t Hs H0 Hd Hge. rewrite Hs.
    assert (Hn : (decide_notify rupees (discount_percent info) (final_price info)
                    (Some (Some last_disc, last_price, t))).1 = false);
      [|by rewrite Hn].
    rewrite Hd. unfold decide_notify, price_dropped; simpl.
    destruct (final_price info) as [f|], last_price as [l|]; simpl;
      rewrite ?andb_false_r; try done.
    rewrite (bool_decide_eq_false_2 (f < l)); [by rewrite andb_false_r|].
    specialize (Hge f l eq_refl eq_refl). lia.
Qed.
End Decisions.

(** ** The key of [notify_state] *)

Lemma db_init_unique : notify_state_unique db_init.
Proof. apply NoDup_nil_2. Qed.

Lemma add_wishlist_notify_state db u p i title :
  notify_state (db_add_wishlist db u p i title).1 = notify_state db.
Proof. unfold db_add_wishlist. by destruct (sql_insert _ _ _). Qed.

Lemma add_tracking_notify_state db u p i title threshold :
  notify_state (db_add_tracking db u p i title threshold).1 = notify_state db.
Proof. unfold db_add_tracking. by destruct (sql_insert _ _ _). Qed.

(** On a conflicting row the [SET] clause yields the proposed row itself. *)
Lemma notify_set_conflict (excluded old : NotifyRow) :
  ns_key old = ns_key excluded → notify_set excluded old = excluded.
Proof.
  destruct old, excluded. unfold ns_key, notify_set; simpl.
  intros [= -> -> ->]. reflexivity.
Qed.

Lemma run_op_unique rupees (op : Op) (bot : Bot) :
  notify_state_unique (store bot) →
  notify_state_unique (store (run_op rupees op bot)).
Proof.
  intros Hu. destruct op; simpl; unfold notify_state_unique.
  - by rewrite add_wishlist_notify_state.
  - done.
  - by rewrite add_tracking_notify_state.
  - done.
  - by apply upsert_unique.
  - by apply check_rows_unique.
Qed.

(** C7. Every entry point of the store keeps at most one row of
    [notify_state] per (user_id, platform, identifier); the upsert appends
    the row when the key is absent, and otherwise rewrites the row of that
    key where it stands, leaving the number of rows and every other row as
    they were. *)
Theorem one_state_row_per_key rupees (op : Op) (bot : Bot) :
  notify_state_unique (store bot) →
  notify_state_unique (store (run_op rupees op bot)) ∧
  ∀ ts u p i d pr,
    let t := notify_state (store bot) in
    let row := {| ns_user_id := u; ns_platform := p; ns_identifier := i;
                  last_discount_percent := Some d; last_price := pr;
                  last_notified_at := Some ts |} in
    let t' := notify_state (db_upsert_notify_state ts (store bot) u p i d pr) in
    NoDup (ns_key <$> t') ∧
    ((u, p, i) ∉ ns_key <$> t → t' = t ++ [row]) ∧
    ((u, p, i) ∈ ns_key <$> t →
       length t' = length t ∧
       t' = (λ old, if decide (ns_key old = (u, p, i)) then row else old) <$> t).
Proof.
  intros Hu. split; [by apply run_op_unique|].
  intros ts u p i d pr t row t'. split_and!.
  - by apply (upsert_unique ts (store bot) u p i d pr).
  - intros Hout. subst t'. simpl. unfold sql_upsert.
    by rewrite decide_False.
  - intros Hin. subst t'. simpl. unfold sql_upsert.
    rewrite decide_True by done. split; [by rewrite length_fmap|].
    apply list_fmap_ext. intros _ old _. simpl.
    destruct (decide (ns_key old = (u, p, i))) as [E|E].
    + rewrite decide_True by exact E. by apply notify_set_conflict.
    + by rewrite decide_False by exact E.
Qed.

(** The invariant holds in every state reached from a fresh database. *)
Lemma reachable_unique rupees (ops : list Op) :
  notify_state_unique
    (store (foldl (λ bot op, run_op rupees op bot)
              {| store := db_init; outbox := [] |} ops)).
Proof.
  assert (H : ∀ bot, notify_state_unique (store bot) →
    notify_state_unique (store (foldl (λ bot op, run_op rupees op bot) bot ops))).
  { induction ops as [|op ops IH]; intros bot Hb; simpl; [done|].
    by apply IH, run_op_unique. }
  apply H, db_init_unique.
Qed.

(** ** Adding and removing wishlist and tracking entries *)

(** C8. Adding an entry whose key is already there returns [False] and the
    database is as before; removing by key returns [True] exactly when a row
    of that key was there, and afterwards none is.  The same for [wishlist]
    and for [tracking]. *)
Theorem duplicate_add_and_remove_report (db : DB) u p i title threshold :
  ((u, p, i) ∈ wl_key <$> wishlist db →
     db_add_wishlist db u p i title = (db, false)) ∧
  ((u, p, i) ∈ tr_key <$> tracking db →
     db_add_tracking db u p i title threshold = (db, false)) ∧
  ((db_remove_wishlist db u p i).2 = true ↔ (u, p, i) ∈ wl_key <$> wishlist db) ∧
  ((db_remove_tracking db u p i).2 = true ↔ (u, p, i) ∈ tr_key <$> tracking db) ∧
  ((u, p, i) ∉ wl_key <$> wishlist (db_remove_wishlist db u p i).1) ∧
  ((u, p, i) ∉ tr_key <$> tracking (db_remove_tracking db u p i).1).
Proof.
  split_and!.
  - intros Hin. unfold db_add_wishlist.
    by rewrite (proj2 (sql_insert_None wl_key _ _)).
  - intros Hin. unfold db_add_tracking.
    by rewrite (proj2 (sql_insert_None tr_key _ _)).
  - unfold db_remove_wishlist; simpl.
    rewrite bool_decide_eq_true. apply (sql_delete_rowcount wl_key).
  - unfold db_remove_tracking; simpl.
    rewrite bool_decide_eq_true. apply (sql_delete_rowcount tr_key).
  - apply (sql_delete_gone wl_key).
  - apply (sql_delete_gone tr_key).
Qed.

(** An absent key is added at the end of the table, with [True]. *)
Lemma add_wishlist_fresh db u p i title :
  (u, p, i) ∉ wl_key <$> wishlist db →
  db_add_wishlist db u p i title =
  ({| wishlist := wishlist db ++ [{| wl_user_id := u; wl_platform := p;
                                     wl_identifier := i; wl_title := title |}];
      tracking := tracking db; notify_state := notify_state db |}, true).
Proof.
  intros Hout. unfold db_add_wishlist, sql_insert. by rewrite decide_False.
Qed.

Lemma add_tracking_fresh db u p i title threshold :
  (u, p, i) ∉ tr_key <$> tracking db →
  db_add_tracking db u p i title threshold =
  ({| wishlist := wishlist db;
      tracking := tracking db ++ [{| tr_user_id := u; tr_platform := p;
                                     tr_identifier := i; tr_title := title;
                                     tr_threshold := threshold |}];
      notify_state := notify_state db |}, true).
Proof.
  intros Hout. unfold db_add_tracking, sql_insert. by rewrite decide_False.
Qed.

(** ** One cycle over all tracked rows *)

Section Cycle.
Variable rupees : option Z → string.
Implicit Types (env : Env) (bot : Bot) (row : TrackingRow).

Lemma check_row_view env b b' row :
  same_view b b' →
  same_view (check_row rupees env b row) (check_row rupees env b' row).
Proof.
  intros [Hs Ho]. unfold check_row. case_decide; [done|].
  destruct (fetch_steam_appdetails env _) as [info|]; [|done].
  unfold db_get_notify_state. rewrite Hs.
  destruct (decide_notify _ _ _ _) as [[] reason]; simpl.
  - split; simpl; by rewrite ?Hs, ?Ho.
  - destruct (_ <$> sql_fetchone _ _ _); [done|].
    split; simpl; by rewrite ?Hs, ?Ho.
Qed.

Lemma check_row_threshold env b row row' :
  same_but_threshold row row' →
  check_row rupees env b row = check_row rupees env b row'.
Proof.
  destruct row, row'. unfold same_but_threshold; simpl.
  intros (-> & -> & -> & ->). reflexivity.
Qed.

Lemma check_rows_without env k rows b b' :
  (∀ row bot, row ∈ rows → tr_key row = k → check_row rupees env bot row = bot) →
  same_view b b' →
  same_view (foldl (check_row rupees env) b rows)
            (foldl (check_row rupees env) b' (filter (λ r, tr_key r ≠ k) rows)).
Proof.
  revert b b'. induction rows as [|row rows IH]; intros b b' Hskip Hv; [done|].
  rewrite filter_cons. simpl. destruct (decide (tr_key row ≠ k)) as [E|E]; simpl.
  - apply IH; [|by apply check_row_view].
    intros r bot Hr. apply Hskip. by right.
  - rewrite Hskip; [|by left|by destruct (decide (tr_key row = k))].
    apply IH; [|done]. intros r bot Hr. apply Hskip. by right.
Qed.

Lemma check_rows_unavailable env u p i rows bot :
  fetch_steam_appdetails env i = None →
  db_get_notify_state (store (foldl (check_row rupees env) bot rows)) u p i
  = db_get_notify_state (store bot) u p i.
Proof.
  intros Hf. revert bot. induction rows as [|row rows IH]; intros bot; [done|].
  simpl. rewrite IH. destruct (decide (tr_key row = (u, p, i))) as [E|E].
  - rewrite check_row_skipped; [done|]. right.
    injection E as _ _ ->. exact Hf.
  - by apply check_row_other_key.
Qed.

(** A row whose fetch is unavailable can be dropped from the list the loop
    runs over. *)
Lemma check_rows_drop env rows1 bad rows2 bot :
  fetch_steam_appdetails env (tr_identifier bad) = None →
  foldl (check_row rupees env) bot (rows1 ++ bad :: rows2)
  = foldl (check_row rupees env) bot (rows1 ++ rows2).
Proof.
  intros Hf. rewrite !foldl_app. simpl.
  by rewrite (check_row_skipped _ _ _ bad) by (by right).
Qed.

(** C9. When Steam has no answer for an item, its state row is after the
    cycle what it was before, and the rest of the store that the job writes
    and every message of the cycle are those of the cycle run without that
    item in [tracking]. *)
Theorem unavailable_item_is_skipped env bot u p i :
  fetch_steam_appdetails env i = None →
  let after := job_check_prices rupees env bot in
  let without := job_check_prices rupees env (untracked bot u p i) in
  db_get_notify_state (store after) u p i = db_get_notify_state (store bot) u p i ∧
  notify_state (store after) = notify_state (store without) ∧
  outbox after = outbox without.
Proof.
  intros Hf after without. split.
  - by apply check_rows_unavailable.
  - apply (check_rows_without env (u, p, i)); [|done].
    intros row b _ E. apply check_row_skipped. right.
    injection E as _ _ ->. exact Hf.
Qed.

Lemma check_rows_thresholds env rows rows' b b' :
  Forall2 same_but_threshold rows rows' →
  same_view b b' →
  same_view (foldl (check_row rupees env) b rows)
            (foldl (check_row rupees env) b' rows').
Proof.
  intros Hrows. revert b b'.
  induction Hrows as [|row row' rows rows' Hr _ IH]; intros b b' Hv; [done|].
  simpl. apply IH. rewrite <- (check_row_threshold env b' row row') by done.
  by apply check_row_view.
Qed.

(** C10. Two runs of the job that differ only in the thresholds stored in
    [tracking] send the same messages, with the same texts and outcomes, to
    the same subscribers and leave the same [notify_state]. *)
Theorem threshold_is_never_consulted env bot bot' :
  same_view bot bot' →
  Forall2 same_but_threshold (tracking (store bot)) (tracking (store bot')) →
  outbox (job_check_prices rupees env bot) = outbox (job_check_prices rupees env bot') ∧
  notify_state (store (job_check_prices rupees env bot))
  = notify_state (store (job_check_prices rupees env bot')).
Proof.
  intros Hv Hrows. unfold job_check_prices, db_get_all_tracked.
  by destruct (check_rows_thresholds env _ _ bot bot' Hrows Hv) as [-> ->].
Qed.
End Cycle.

(** ** The statements at the worked configuration *)

(** The scenario of three polls: 10% off at 900 notifies and records
    (10, 900); the same values again change nothing; 25% off at 750 notifies
    and records (25, 750). *)
Example three_polls :
  let b1 := job_check_prices Sample.whole_rupees (Sample.poll Sample.sale10 100)
              Sample.tracking_dota in
  let b2 := job_check_prices Sample.whole_rupees (Sample.poll Sample.sale10 200) b1 in
  let b3 := job_check_prices Sample.whole_rupees (Sample.poll Sample.sale25 300) b2 in
  db_get_notify_state (store b1) 42 "steam" "570" = Some (Some 10, Some 900, Some 100) ∧
  outbox b1 =
    [(42, "ߎ *Price Alert* — Dota 2" +:+ nl +:+ "Discount -10%" +:+ nl +:+
          "https://store.steampowered.com/app/570" +:+ nl +:+
          "Now: Rs 9 (MRP Rs 10)", true)] ∧
  b2 = b1 ∧
  db_get_notify_state (store b3) 42 "steam" "570" = Some (Some 25, Some 750, Some 300) ∧
  length (outbox b3) = 2%nat.
Proof. repeat split. Qed.

(** A first observation without a discount is recorded silently, and a later
    lower price is then announced as a price drop. *)
Example bootstrap_then_price_drop :
  let b1 := job_check_prices Sample.whole_rupees (Sample.poll Sample.full_price 100)
              Sample.tracking_dota in
  let b2 := job_check_prices Sample.whole_rupees
              (Sample.poll (Sample.snapshot 0 (Some 400) (Some 400)) 200) b1 in
  outbox b1 = [] ∧
  db_get_notify_state (store b1) 42 "steam" "570" = Some (Some 0, Some 500, Some 100) ∧
  outbox b2 =
    [(42, "ߎ *Price Alert* — Dota 2" +:+ nl +:+
          "Price dropped from Rs 5 to Rs 4" +:+ nl +:+
          "https://store.steampowered.com/app/570" +:+ nl +:+
          "Now: Rs 4 (MRP Rs 4)", true)] ∧
  db_get_notify_state (store b2) 42 "steam" "570" = Some (Some 0, Some 400, Some 200).
Proof. repeat split. Qed.

Lemma notify_commits_state_witness :
  let raising := with_send_message (Sample.poll Sample.sale10 100) (λ _ _, false) in
  let bot' := check_row Sample.whole_rupees raising Sample.tracking_dota Sample.dota in
  db_get_notify_state (store bot') 42 "steam" "570" = Some (Some 10, Some 900, Some 100) ∧
  store bot' = store (check_row Sample.whole_rupees (Sample.poll Sample.sale10 100)
                        Sample.tracking_dota Sample.dota) ∧
  ∃ txt, outbox bot' = [(42, txt, false)].
Proof.
  exact (notify_commits_state_whatever_delivery Sample.whole_rupees
           (Sample.poll Sample.sale10 100) Sample.tracking_dota Sample.dota
           Sample.sale10 (λ _ _, false) eq_refl eq_refl eq_refl).
Defined.

Lemma same_snapshot_twice_witness :
  let bot' := check_row Sample.whole_rupees (Sample.poll Sample.sale10 100)
                Sample.tracking_dota Sample.dota in
  (decide_notify Sample.whole_rupees 10 (Some 900)
     (db_get_notify_state (store bot') 42 "steam" "570")).1 = false ∧
  check_row Sample.whole_rupees (Sample.poll Sample.sale10 200) bot' Sample.dota = bot'.
Proof.
  exact (same_snapshot_twice_notifies_once Sample.whole_rupees
           (Sample.poll Sample.sale10 100) (Sample.poll Sample.sale10 200)
           Sample.tracking_dota Sample.dota Sample.sale10
           eq_refl eq_refl eq_refl eq_refl).
Defined.

Lemma first_discount_witness :
  let bot' := check_row Sample.whole_rupees (Sample.poll Sample.sale10 100)
                Sample.tracking_dota Sample.dota in
  (decide_notify Sample.whole_rupees 10 (Some 900) None).1 = true ∧
  (∃ txt, outbox bot' = [(42, txt, true)]) ∧
  db_get_notify_state (store bot') 42 "steam" "570" = Some (Some 10, Some 900, Some 100).
Proof.
  exact (first_discount_notifies_and_records Sample.whole_rupees
           (Sample.poll Sample.sale10 100) Sample.tracking_dota Sample.dota
           Sample.sale10 eq_refl eq_refl eq_refl eq_refl).
Defined.

Lemma noop_witness :
  check_row Sample.whole_rupees (Sample.poll Sample.full_price 200)
    (Sample.with_state 20 (Some 500)) Sample.dota
  = Sample.with_state 20 (Some 500) ∧
  db_get_notify_state
    (store (check_row Sample.whole_rupees (Sample.poll Sample.full_price 200)
              Sample.tracking_dota Sample.dota)) 42 "steam" "570"
  = Some (Some 0, Some 500, Some 200).
Proof.
  split.
  - refine (proj2 (proj2 (proj2 (noop_leaves_state_or_bootstraps Sample.whole_rupees
              (Sample.poll Sample.full_price 200) (Sample.with_state 20 (Some 500))
              Sample.dota Sample.full_price eq_refl eq_refl))
            20 (Some 500) (Some 1700000000) eq_refl _ eq_refl _)).
    + lia.
    + intros f l [= <-] [= <-]. lia.
  - exact (proj2 (proj1 (proj2 (noop_leaves_state_or_bootstraps Sample.whole_rupees
              (Sample.poll Sample.full_price 200) Sample.tracking_dota
              Sample.dota Sample.full_price eq_refl eq_refl)) eq_refl eq_refl)).
Defined.

Lemma one_state_row_per_key_witness :
  notify_state_unique
    (store (run_op Sample.whole_rupees (CheckPrices (Sample.poll Sample.sale10 100))
              Sample.tracking_dota)).
Proof.
  exact (proj1 (one_state_row_per_key Sample.whole_rupees
                  (CheckPrices (Sample.poll Sample.sale10 100))
                  Sample.tracking_dota db_init_unique)).
Defined.

Lemma duplicate_add_witness :
  db_add_tracking (store Sample.tracking_dota) 42 "steam" "570" (Some "Dota 2") 30
  = (store Sample.tracking_dota, false) ∧
  (db_remove_tracking (store Sample.tracking_dota) 42 "steam" "570").2 = true.
Proof.
  pose proof (duplicate_add_and_remove_report (store Sample.tracking_dota)
                42 "steam" "570" (Some "Dota 2") 30) as (_ & Hadd & _ & Hrm & _).
  split; [apply Hadd | apply Hrm]; simpl; left.
Defined.

Lemma unavailable_item_witness :
  let env := Sample.poll Sample.sale10 100 in
  let after := job_check_prices Sample.whole_rupees env Sample.three_games in
  let without := job_check_prices Sample.whole_rupees env
                   (untracked Sample.three_games 42 "steam" "730") in
  db_get_notify_state (store after) 42 "steam" "730" = None ∧
  notify_state (store after) = notify_state (store without) ∧
  outbox after = outbox without.
Proof.
  exact (unavailable_item_is_skipped Sample.whole_rupees
           (Sample.poll Sample.sale10 100) Sample.three_games 42 "steam" "730" eq_refl).
Defined.

Lemma threshold_witness :
  let env := Sample.poll Sample.sale10 100 in
  outbox (job_check_prices Sample.whole_rupees env (Sample.tracking_dota_at 0))
  = outbox (job_check_prices Sample.whole_rupees env (Sample.tracking_dota_at 50)) ∧
  notify_state (store (job_check_prices Sample.whole_rupees env (Sample.tracking_dota_at 0)))
  = notify_state (store (job_check_prices Sample.whole_rupees env (Sample.tracking_dota_at 50))).
Proof.
  apply (threshold_is_never_consulted Sample.whole_rupees
           (Sample.poll Sample.sale10 100)
           (Sample.tracking_dota_at 0) (Sample.tracking_dota_at 50)).
  - split; reflexivity.
  - simpl. constructor; [repeat split | constructor].
Defined.

(** * Further properties *)

(** ** Cycles that have nothing to do *)

Section Quiet.
Variable rupees : option Z → string.
Implicit Types (env : Env) (bot : Bot) (row : TrackingRow).

(** Against the state a snapshot has just been written to, the chain decides
    no-op for that snapshot. *)
Lemma decide_notify_recorded disc final_price t :
  (decide_notify rupees disc final_price (Some (Some disc, final_price, t))).1 = false.
Proof.
  unfold decide_notify, price_dropped; simpl.
  rewrite (bool_decide_eq_false_2 (Some _ ≠ Some _)) by (intros H; by apply H).
  rewrite andb_false_r.
  destruct final_price as [f|]; simpl; [|done].
  rewrite (bool_decide_eq_false_2 (f < f)) by lia.
  by rewrite andb_false_r.
Qed.

Lemma calm_quiet env bot row :
  calm rupees env bot row → check_row rupees env bot row = bot.
Proof.
  intros [Hp|[Hf|(info & s & Hf & Hs & Hn)]].
  - apply check_row_skipped. by left.
  - apply check_row_skipped. by right.
  - destruct (decide (tr_platform row = "steam")) as [Hp|Hp];
      [|apply check_row_skipped; by left].
    rewrite (check_row_fetched _ _ _ _ info) by done.
    rewrite Hp in Hs. simpl. by rewrite Hs, Hn.
Qed.

(** After the turn of a row, every row of the same key is calm, in any
    world where Steam answers the same. *)
Lemma calm_after_turn env env' bot row row' :
  same_answers env env' →
  tr_key row' = tr_key row →
  calm rupees env' (check_row rupees env bot row) row'.
Proof.
  intros Hsame Hk. injection Hk as Hu Hp Hi. unfold calm. rewrite Hu, Hp, Hi.
  destruct (decide (tr_platform row = "steam")) as [Hs|Hs]; [|by left].
  right. rewrite <- (Hsame (tr_identifier row)).
  destruct (fetch_steam_appdetails env (tr_identifier row)) as [info|] eqn:Hf;
    [|by left].
  right. exists info.
  rewrite (check_row_fetched _ _ _ _ info) by done. rewrite Hs. simpl.
  destruct (decide_notify rupees _ _ _) as [[] reason] eqn:Hd; simpl.
  - eexists. split; [done|]. rewrite get_after_upsert.
    split; [done | apply decide_notify_recorded].
  - destruct (db_get_notify_state (store bot) _ _ _) as [s|] eqn:Hst.
    + exists s. split; [done|]. split; [done|]. by rewrite Hd.
    + eexists. split; [done|]. simpl. rewrite get_after_upsert.
      split; [done | apply decide_notify_recorded].
Qed.

(** The turn of a row leaves the rows of other keys calm. *)
Lemma calm_other_key env env' bot row row' :
  tr_key row ≠ tr_key row' →
  calm rupees env' bot row' →
  calm rupees env' (check_row rupees env bot row) row'.
Proof.
  intros Hk [Hp|[Hf|(info & s & Hf & Hs & Hn)]]; [by left | by right; left |].
  right; right. exists info, s. split; [done|]. split; [|done].
  by rewrite check_row_other_key.
Qed.

Lemma calm_after_rows env env' rows bot row' :
  same_answers env env' →
  calm rupees env' bot row' ∨ (∃ row, row ∈ rows ∧ tr_key row = tr_key row') →
  calm rupees env' (foldl (check_row rupees env) bot rows) row'.
Proof.
  intros Hsame. revert bot. induction rows as [|row rows IH]; intros bot H; simpl.
  - destruct H as [H|(r & Hr & _)]; [done | by apply elem_of_nil in Hr].
  - apply IH. destruct (decide (tr_key row = tr_key row')) as [E|E].
    + left. by apply calm_after_turn.
    + destruct H as [H|(r & Hr & Hkr)].
      * left. by apply calm_other_key.
      * apply elem_of_cons in Hr as [->|Hr]; [done|]. right. eauto.
Qed.

Lemma calm_rows_quiet env rows bot :
  Forall (calm rupees env bot) rows →
  foldl (check_row rupees env) bot rows = bot.
Proof.
  induction 1 as [|row rows Hrow _ IH]; simpl; [done|].
  by rewrite calm_quiet.
Qed.

Lemma check_rows_tables env rows bot :
  wishlist (store (foldl (check_row rupees env) bot rows)) = wishlist (store bot) ∧
  tracking (store (foldl (check_row rupees env) bot rows)) = tracking (store bot).
Proof.
  revert bot. induction rows as [|row rows IH]; intros bot; simpl; [done|].
  destruct (IH (check_row rupees env bot row)) as [-> ->].
  apply check_row_tables.
Qed.

(** X1. A cycle run again while Steam answers as before changes nothing:
    no message is sent and no row is written, whatever Telegram and the
    clock do in the second cycle. *)
Theorem second_cycle_is_silent env env' bot :
  same_answers env env' →
  job_check_prices rupees env' (job_check_prices rupees env bot)
  = job_check_prices rupees env bot.
Proof.
  intros Hsame. unfold job_check_prices at 1. unfold db_get_all_tracked.
  unfold job_check_prices at 1 2. unfold db_get_all_tracked.
  rewrite (proj2 (check_rows_tables env _ bot)).
  apply calm_rows_quiet, Forall_forall. intros row Hrow.
  apply calm_after_rows; [done|]. right. eauto.
Qed.

(** X2. When no tracked row is a Steam row with an answer (Steam is down,
    or nothing is tracked), the cycle leaves the bot exactly as it was. *)
Theorem cycle_without_answers_is_identity env bot :
  (∀ row, row ∈ tracking (store bot) →
     tr_platform row ≠ "steam" ∨ fetch_steam_appdetails env (tr_identifier row) = None) →
  job_check_prices rupees env bot = bot.
Proof.
  intros H. apply calm_rows_quiet, Forall_forall. intros row Hrow.
  destruct (H row Hrow) as [?|?]; [by left | by right; left].
Qed.
End Quiet.

(** ** What a cycle touches and whom it writes to *)

Section Reach.
Variable rupees : option Z → string.
Implicit Types (env : Env) (bot : Bot) (row : TrackingRow).

Lemma check_rows_other_key env rows bot u p i :
  (u, p, i) ∉ tr_key <$> rows →
  db_get_notify_state (store (foldl (check_row rupees env) bot rows)) u p i
  = db_get_notify_state (store bot) u p i.
Proof.
  revert bot. induction rows as [|row rows IH]; intros bot Hout; simpl; [done|].
  rewrite fmap_cons, not_elem_of_cons in Hout. destruct Hout as [Hne Hout].
  rewrite IH by done. apply check_row_other_key. congruence.
Qed.

(** X3. A cycle never changes [wishlist] or [tracking], and it leaves alone
    the state row of every key that is not tracked. *)
Theorem cycle_writes_tracked_state_only env bot :
  wishlist (store (job_check_prices rupees env bot)) = wishlist (store bot) ∧
  tracking (store (job_check_prices rupees env bot)) = tracking (store bot) ∧
  ∀ u p i, (u, p, i) ∉ tr_key <$> tracking (store bot) →
    db_get_notify_state (store (job_check_prices rupees env bot)) u p i
    = db_get_notify_state (store bot) u p i.
Proof.
  unfold job_check_prices, db_get_all_tracked.
  destruct (check_rows_tables rupees env (tracking (store bot)) bot) as [Hw Ht].
  split_and!; [done | done |]. intros u p i. apply check_rows_other_key.
Qed.

(** A turn sends nothing, or one message to the subscriber of its row. *)
Lemma check_row_outbox env bot row :
  outbox (check_row rupees env bot row) = outbox bot ∨
  tr_platform row = "steam" ∧
  is_Some (fetch_steam_appdetails env (tr_identifier row)) ∧
  ∃ txt, outbox (check_row rupees env bot row)
         = outbox bot ++ [(tr_user_id row, txt, send_message env (tr_user_id row) txt)].
Proof.
  unfold check_row. destruct (decide (tr_platform row ≠ "steam")) as [Hp|Hp]; [by left|].
  destruct (fetch_steam_appdetails env _) as [info|]; [|by left].
  destruct (decide_notify _ _ _ _) as [[] reason]; simpl.
  - right. split; [by destruct (decide (tr_platform row = "steam"))|].
    split; [done | eauto].
  - left. by destruct (db_get_notify_state _ _ _ _).
Qed.

Lemma check_rows_outbox env rows bot :
  ∃ new,
    outbox (foldl (check_row rupees env) bot rows) = outbox bot ++ new ∧
    (length new ≤ length rows)%nat ∧
    ∀ m, m ∈ new →
      ∃ row, row ∈ rows ∧ tr_platform row = "steam" ∧
             is_Some (fetch_steam_appdetails env (tr_identifier row)) ∧
             m.1.1 = tr_user_id row ∧ m.2 = send_message env m.1.1 m.1.2.
Proof.
  revert bot. induction rows as [|row rows IH]; intros bot; simpl.
  - exists []. rewrite app_nil_r. split_and!; [done | done |].
    intros m Hm. by apply elem_of_nil in Hm.
  - destruct (IH (check_row rupees env bot row)) as (new & Hnew & Hlen & Hall).
    destruct (check_row_outbox env bot row) as [Hsame|(Hp & Hf & txt & Hone)].
    + exists new. rewrite Hnew, Hsame. split_and!; [done | lia |].
      intros m Hm. destruct (Hall m Hm) as (r & Hr & ?). exists r. split; [by right | done].
    + exists ((tr_user_id row, txt, send_message env (tr_user_id row) txt) :: new).
      rewrite Hnew, Hone, <- app_assoc. split_and!; [done | simpl; lia |].
      intros m [->|Hm]%elem_of_cons.
      * exists row. split; [by left | done].
      * destruct (Hall m Hm) as (r & Hr & ?). exists r. split; [by right | done].
Qed.

(** X4. A cycle keeps the messages already sent, adds at most one message
    per tracked row, and addresses each new message to the subscriber of a
    tracked Steam row for which Steam answered. *)
Theorem cycle_messages_go_to_subscribers env bot :
  ∃ new,
    outbox (job_check_prices rupees env bot) = outbox bot ++ new ∧
    (length new ≤ length (tracking (store bot)))%nat ∧
    ∀ m, m ∈ new →
      ∃ row, row ∈ tracking (store bot) ∧ tr_platform row = "steam" ∧
             is_Some (fetch_steam_appdetails env (tr_identifier row)) ∧
             m.1.1 = tr_user_id row ∧ m.2 = send_message env m.1.1 m.1.2.
Proof. apply check_rows_outbox. Qed.
End Reach.

(** ** Items are handled one by one *)

Section Items.
Variable rupees : option Z → string.
Implicit Types (env : Env) (bot : Bot) (row : TrackingRow).

Local Abbreviation state_at bot row :=
  (db_get_notify_state (store bot) (tr_user_id row) (tr_platform row)
     (tr_identifier row)).

(** The state row of a key after the turn of a row of that key: as before,
    or the snapshot. *)
Lemma check_row_own_state env bot row :
  state_at (check_row rupees env bot row) row = state_at bot row ∨
  ∃ info, fetch_steam_appdetails env (tr_identifier row) = Some info ∧
          state_at (check_row rupees env bot row) row
          = Some (Some (discount_percent info), final_price info,
                  Some (time_time env (tr_user_id row) (tr_platform row)
                          (tr_identifier row))).
Proof.
  destruct (decide (tr_platform row = "steam")) as [Hp|Hp];
    [|left; by rewrite check_row_skipped by (by left)].
  destruct (fetch_steam_appdetails env (tr_identifier row)) as [info|] eqn:Hf;
    [|left; by rewrite check_row_skipped by (by right)].
  rewrite (check_row_fetched _ _ _ _ info) by done. rewrite Hp. simpl.
  destruct (decide_notify rupees _ _ _) as [[] reason]; simpl.
  - right. exists info. split; [done | apply get_after_upsert].
  - destruct (db_get_notify_state (store bot) _ _ _) eqn:Hs.
    + left. by rewrite Hs.
    + right. exists info. split; [done | apply get_after_upsert].
Qed.

(** The state row a turn leaves for its key depends on the bot only through
    the state row it found there. *)
Lemma check_row_own_state_congr env b b' row :
  state_at b row = state_at b' row →
  state_at (check_row rupees env b row) row = state_at (check_row rupees env b' row) row.
Proof.
  intros Hs.
  destruct (decide (tr_platform row = "steam")) as [Hp|Hp];
    [|by rewrite !check_row_skipped by (by left)].
  destruct (fetch_steam_appdetails env (tr_identifier row)) as [info|] eqn:Hf;
    [|by rewrite !check_row_skipped by (by right)].
  rewrite !(check_row_fetched _ _ _ _ info) by done. rewrite Hp in *. simpl.
  rewrite <- Hs.
  destruct (decide_notify rupees _ _ _) as [[] reason]; simpl.
  - by rewrite !get_after_upsert.
  - destruct (db_get_notify_state (store b) _ _ _) eqn:Hb.
    + by rewrite Hb, <- Hs.
    + simpl. by rewrite !get_after_upsert.
Qed.

(** X5. With at most one row of [tracking] per key, the state row of a
    tracked item after the cycle is the one its own turn alone would leave:
    the other items of the cycle have no part in it. *)
Theorem item_state_is_its_own_turn env bot row :
  tracking_unique (store bot) →
  row ∈ tracking (store bot) →
  state_at (job_check_prices rupees env bot) row
  = state_at (check_row rupees env bot row) row.
Proof.
  unfold tracking_unique, job_check_prices, db_get_all_tracked.
  intros Hnd Hin. apply list_elem_of_split in Hin as (l1 & l2 & Hrows).
  rewrite Hrows in *. rewrite fmap_app, fmap_cons in Hnd.
  apply NoDup_app in Hnd as (_ & Hl1 & Hl2). apply NoDup_cons in Hl2 as [Hl2 _].
  rewrite foldl_app. simpl.
  rewrite (check_rows_other_key rupees) by exact Hl2.
  apply check_row_own_state_congr.
  apply (check_rows_other_key rupees). intros Hk. apply (Hl1 _ Hk). by left.
Qed.

(** No positive discount and no price below the recorded one: no message. *)
Lemma no_deal_turn env bot row info :
  fetch_steam_appdetails env (tr_identifier row) = Some info →
  discount_percent info ≤ 0 →
  (∀ d l t f, state_at bot row = Some (d, Some l, t) →
              final_price info = Some f → l ≤ f) →
  outbox (check_row rupees env bot row) = outbox bot.
Proof.
  intros Hf Hd Hpr.
  destruct (decide (tr_platform row = "steam")) as [Hp|Hp];
    [|by rewrite check_row_skipped by (by left)].
  rewrite (check_row_fetched _ _ _ _ info) by done. rewrite Hp in *. simpl.
  assert (Hn : (decide_notify rupees (discount_percent info) (final_price info)
                  (db_get_notify_state (store bot) (tr_user_id row) "steam"
                     (tr_identifier row))).1 = false).
  { unfold decide_notify, price_dropped.
    rewrite (bool_decide_eq_false_2 (0 < _)) by lia. simpl.
    destruct (db_get_notify_state _ _ _ _) as [[[d [l|]] t]|] eqn:Hs; simpl;
      destruct (final_price info) as [f|] eqn:Hfp; simpl;
      rewrite ?andb_false_r; try done.
    rewrite (bool_decide_eq_false_2 (f < l));
      [by rewrite !andb_false_r | specialize (Hpr d l t f eq_refl eq_refl); lia]. }
  rewrite Hn. by destruct (db_get_notify_state _ _ _ _).
Qed.

Lemma no_deal_rows env rows bot :
  (∀ row info, row ∈ rows →
     fetch_steam_appdetails env (tr_identifier row) = Some info →
     discount_percent info ≤ 0 ∧
     ∀ d l t f, state_at bot row = Some (d, Some l, t) →
                final_price info = Some f → l ≤ f) →
  outbox (foldl (check_row rupees env) bot rows) = outbox bot.
Proof.
  revert bot. induction rows as [|row rows IH]; intros bot H; simpl; [done|].
  rewrite IH.
  - destruct (fetch_steam_appdetails env (tr_identifier row)) as [info|] eqn:Hf;
      [|by rewrite check_row_skipped by (by right)].
    destruct (H row info) as [Hd Hpr]; [by left | done |].
    by apply (no_deal_turn env bot row info).
  - intros r info Hr Hf. destruct (H r info) as [Hd Hpr]; [by right | done |].
    split; [done|]. intros d l t f Hs Hfp.
    destruct (decide (tr_key row = tr_key r)) as [E|E].
    + injection E as Hu Hp Hi. rewrite <- Hu, <- Hp, <- Hi in Hs.
      destruct (check_row_own_state env bot row) as [Hsame|(info' & Hf' & Hnew)].
      * rewrite Hsame, Hu, Hp, Hi in Hs. by apply (Hpr d l t f).
      * rewrite Hnew in Hs. rewrite Hi, Hf in Hf'. injection Hf' as <-.
        injection Hs as _ Hl _. rewrite Hfp in Hl. injection Hl as ->. lia.
    + rewrite check_row_other_key in Hs by done. by apply (Hpr d l t f).
Qed.

(** X6. A cycle in which no tracked game has a positive discount or a final
    price below the recorded one sends no message: ended discounts and
    price rises are never announced. *)
Theorem cycle_without_deals_sends_nothing env bot :
  (∀ row info, row ∈ tracking (store bot) →
     fetch_steam_appdetails env (tr_identifier row) = Some info →
     discount_percent info ≤ 0 ∧
     ∀ d l t f, state_at bot row = Some (d, Some l, t) →
                final_price info = Some f → l ≤ f) →
  outbox (job_check_prices rupees env bot) = outbox bot.
Proof. intros H. by apply no_deal_rows. Qed.

(** Bots with the same store whose outboxes agree on recipients and texts. *)
Lemma check_row_delivery env d b b' row :
  store b = store b' ∧ fst <$> outbox b = fst <$> outbox b' →
  store (check_row rupees (with_send_message env d) b row)
  = store (check_row rupees env b' row) ∧
  fst <$> outbox (check_row rupees (with_send_message env d) b row)
  = fst <$> outbox (check_row rupees env b' row).
Proof.
  intros [Hs Ho]. unfold check_row; simpl. rewrite Hs.
  case_decide; [done|].
  destruct (fetch_steam_appdetails env _) as [info|]; [|done].
  destruct (decide_notify rupees _ _ _) as [[] reason]; simpl.
  - split; [done|]. by rewrite !fmap_app, Ho.
  - by destruct (db_get_notify_state _ _ _ _).
Qed.

(** X7. Whether Telegram delivers or raises has no effect on a cycle beyond
    the delivery itself: the store after the cycle, and the recipients and
    texts of the messages attempted, are the same for every behaviour [d] of
    [send_message]. *)
Theorem delivery_does_not_steer_the_cycle env d bot :
  store (job_check_prices rupees (with_send_message env d) bot)
  = store (job_check_prices rupees env bot) ∧
  fst <$> outbox (job_check_prices rupees (with_send_message env d) bot)
  = fst <$> outbox (job_check_prices rupees env bot).
Proof.
  unfold job_check_prices, db_get_all_tracked.
  generalize (tracking (store bot)). intros rows.
  assert (H : store bot = store bot ∧ fst <$> outbox bot = fst <$> outbox bot) by done.
  revert H. generalize bot at 1 3 5 7. generalize bot at 1 2 3 4.
  induction rows as [|row rows IH]; intros b' b H; simpl; [done|].
  by apply IH, check_row_delivery.
Qed.
End Items.

(** ** More on the tables *)

Section TableMore.
Context {Row : Type} (pk : Row → Key).
Implicit Types (t : list Row) (r : Row) (k : Key).

Lemma sql_insert_NoDup r t t' :
  NoDup (pk <$> t) → sql_insert pk r t = Some t' → NoDup (pk <$> t').
Proof.
  intros Hnd (Hout & ->)%sql_insert_Some. rewrite fmap_app. simpl.
  apply NoDup_app. split_and!; [done | | apply NoDup_singleton].
  intros k Hk ->%list_elem_of_singleton. done.
Qed.

Lemma sql_delete_NoDup k t :
  NoDup (pk <$> t) → NoDup (pk <$> (sql_delete pk k t).1).
Proof.
  intros Hnd. apply (sublist_NoDup _ (pk <$> t)); [done|].
  apply fmap_sublist, sublist_filter.
Qed.

(** Deleting the key of a row that was just appended gives the table back,
    with a row count of one. *)
Lemma sql_delete_appended r t :
  pk r ∉ pk <$> t → sql_delete pk (pk r) (t ++ [r]) = (t, 1%nat).
Proof.
  intros Hout. unfold sql_delete. rewrite !filter_app.
  change (filter (λ x, pk x ≠ pk r) t) with (sql_delete pk (pk r) t).1.
  rewrite sql_delete_absent by done.
  rewrite !filter_cons, !filter_nil.
  rewrite decide_False by (intros H; by apply H). rewrite decide_True by done.
  rewrite app_nil_r. f_equal.
  assert (Hnone : filter (λ x, pk x = pk r) t = []).
  { apply head_None. by apply (sql_fetchone_None pk). }
  by rewrite Hnone.
Qed.

(** Under the primary key a delete that finds its key removes one row. *)
Lemma sql_delete_one k t :
  NoDup (pk <$> t) → k ∈ pk <$> t →
  (sql_delete pk k t).2 = 1%nat ∧
  (length (sql_delete pk k t).1 + 1)%nat = length t.
Proof.
  unfold sql_delete; simpl. induction t as [|x t IH]; intros Hnd Hin.
  - by apply elem_of_nil in Hin.
  - rewrite fmap_cons in Hnd, Hin. apply NoDup_cons in Hnd as [Hx Hnd].
    rewrite !filter_cons. destruct (decide (pk x = k)) as [E|E].
    + rewrite decide_False by (intros H; by apply H). subst k.
      change (filter (λ r, pk r ≠ pk x) t) with (sql_delete pk (pk x) t).1.
      rewrite sql_delete_absent by done.
      assert (Hnone : filter (λ r, pk r = pk x) t = []).
      { apply head_None. by apply (sql_fetchone_None pk). }
      rewrite Hnone. simpl. split; [done | lia].
    + rewrite decide_True by done. simpl.
      apply elem_of_cons in Hin as [Hk|Hin]; [congruence|].
      destruct (IH Hnd Hin) as [-> <-]. split; [done | lia].
Qed.
End TableMore.

(** ** Wishlist and tracking entries *)

Lemma add_wishlist_unique db u p i title :
  wishlist_unique db → wishlist_unique (db_add_wishlist db u p i title).1.
Proof.
  unfold wishlist_unique, db_add_wishlist. intros Hnd.
  destruct (sql_insert wl_key _ (wishlist db)) eqn:E; simpl; [|done].
  by apply (sql_insert_NoDup wl_key _ _ _ Hnd E).
Qed.

Lemma add_tracking_unique db u p i title threshold :
  tracking_unique db → tracking_unique (db_add_tracking db u p i title threshold).1.
Proof.
  unfold tracking_unique, db_add_tracking. intros Hnd.
  destruct (sql_insert tr_key _ (tracking db)) eqn:E; simpl; [|done].
  by apply (sql_insert_NoDup tr_key _ _ _ Hnd E).
Qed.

Lemma add_wishlist_tracking db u p i title :
  tracking (db_add_wishlist db u p i title).1 = tracking db.
Proof. unfold db_add_wishlist. by destruct (sql_insert _ _ _). Qed.

Lemma add_tracking_wishlist db u p i title threshold :
  wishlist (db_add_tracking db u p i title threshold).1 = wishlist db.
Proof. unfold db_add_tracking. by destruct (sql_insert _ _ _). Qed.

(** X8. Every entry point of the store, a whole cycle included, keeps at
    most one row per (user_id, platform, identifier) in [wishlist] and in
    [tracking]: no subscription is ever stored, or polled, twice. *)
Theorem wishlist_and_tracking_keys_stay_unique rupees (op : Op) (bot : Bot) :
  wishlist_unique (store bot) → tracking_unique (store bot) →
  wishlist_unique (store (run_op rupees op bot)) ∧
  tracking_unique (store (run_op rupees op bot)).
Proof.
  intros Hw Ht. destruct op as [u p i t|u p i|u p i t th|u p i|ts u p i d pr|env];
    simpl; unfold wishlist_unique, tracking_unique in *.
  - split; [by apply add_wishlist_unique | by rewrite add_wishlist_tracking].
  - split; [by apply (sql_delete_NoDup wl_key) | done].
  - split; [by rewrite add_tracking_wishlist | by apply add_tracking_unique].
  - split; [done | by apply (sql_delete_NoDup tr_key)].
  - done.
  - unfold job_check_prices, db_get_all_tracked.
    by destruct (check_rows_tables rupees env (tracking (store bot)) bot) as [-> ->].
Qed.

(** X9. Adding an entry whose key is absent and then removing it by that key
    gives back the database as it was, and the removal reports [True]. *)
Theorem add_then_remove_restores (db : DB) u p i title threshold :
  ((u, p, i) ∉ wl_key <$> wishlist db →
     db_remove_wishlist (db_add_wishlist db u p i title).1 u p i = (db, true)) ∧
  ((u, p, i) ∉ tr_key <$> tracking db →
     db_remove_tracking (db_add_tracking db u p i title threshold).1 u p i = (db, true)).
Proof.
  split; intros Hout.
  - rewrite add_wishlist_fresh by done. unfold db_remove_wishlist.
    cbn [fst wishlist tracking notify_state].
    set (row := {| wl_user_id := u; wl_platform := p; wl_identifier := i;
                   wl_title := title |}).
    change (u, p, i) with (wl_key row).
    rewrite (sql_delete_appended wl_key) by done. by destruct db.
  - rewrite add_tracking_fresh by done. unfold db_remove_tracking.
    cbn [fst wishlist tracking notify_state].
    set (row := {| tr_user_id := u; tr_platform := p; tr_identifier := i;
                   tr_title := title; tr_threshold := threshold |}).
    change (u, p, i) with (tr_key row).
    rewrite (sql_delete_appended tr_key) by done. by destruct db.
Qed.

(** X10. Removing a key that is not there changes nothing and reports
    [False]; under the primary key, removing a key that is there takes
    exactly one row out of the table. *)
Theorem remove_takes_out_one_row_or_none (db : DB) u p i :
  ((u, p, i) ∉ wl_key <$> wishlist db → db_remove_wishlist db u p i = (db, false)) ∧
  ((u, p, i) ∉ tr_key <$> tracking db → db_remove_tracking db u p i = (db, false)) ∧
  (wishlist_unique db → (u, p, i) ∈ wl_key <$> wishlist db →
     (length (wishlist (db_remove_wishlist db u p i).1) + 1)%nat = length (wishlist db)) ∧
  (tracking_unique db → (u, p, i) ∈ tr_key <$> tracking db →
     (length (tracking (db_remove_tracking db u p i).1) + 1)%nat = length (tracking db)).
Proof.
  split_and!.
  - intros Hout. unfold db_remove_wishlist.
    pose proof (sql_delete_absent wl_key _ _ Hout) as Hsame.
    pose proof (sql_delete_rowcount wl_key (u, p, i) (wishlist db)) as Hcount.
    destruct (sql_delete wl_key (u, p, i) (wishlist db)) as [t n]; simpl in *.
    subst t. rewrite bool_decide_eq_false_2 by (by rewrite Hcount). by destruct db.
  - intros Hout. unfold db_remove_tracking.
    pose proof (sql_delete_absent tr_key _ _ Hout) as Hsame.
    pose proof (sql_delete_rowcount tr_key (u, p, i) (tracking db)) as Hcount.
    destruct (sql_delete tr_key (u, p, i) (tracking db)) as [t n]; simpl in *.
    subst t. rewrite bool_decide_eq_false_2 by (by rewrite Hcount). by destruct db.
  - intros Hnd Hin. apply (sql_delete_one wl_key); done.
  - intros Hnd Hin. apply (sql_delete_one tr_key); done.
Qed.





(** ** Untracking and tracking again *)

Lemma calm_same_states rupees env b b' row :
  notify_state (store b) = notify_state (store b') →
  calm rupees env b row → calm rupees env b' row.
Proof.
  unfold calm, db_get_notify_state. by intros ->.
Qed.

(** X13. Untracking a game does not delete its state row, so tracking it
    again does not start over: after a cycle, an untrack and a new track of
    the same game, the next cycle with the same Steam answers sends nothing
    and changes nothing, for this game and for every other. *)
Theorem retrack_does_not_reannounce rupees env env' bot u p i title threshold :
  same_answers env env' →
  (u, p, i) ∈ tr_key <$> tracking (store bot) →
  let b1 := job_check_prices rupees env bot in
  let b2 := {| store := (db_add_tracking (db_remove_tracking (store b1) u p i).1
                           u p i title threshold).1;
               outbox := outbox b1 |} in
  notify_state (store b2) = notify_state (store b1) ∧
  job_check_prices rupees env' b2 = b2.
Proof.
  intros Hsame Hin b1 b2.
  assert (Hrows : tracking (store b1) = tracking (store bot)).
  { apply (check_rows_tables rupees env (tracking (store bot)) bot). }
  assert (Hfresh : (u, p, i) ∉ tr_key <$> tracking (db_remove_tracking (store b1) u p i).1)
    by apply (sql_delete_gone tr_key).
  assert (Hb2 : store b2 =
    {| wishlist := wishlist (store b1);
       tracking := filter (λ r, tr_key r ≠ (u, p, i)) (tracking (store bot)) ++
                   [{| tr_user_id := u; tr_platform := p; tr_identifier := i;
                       tr_title := title; tr_threshold := threshold |}];
       notify_state := notify_state (store b1) |}).
  { subst b2. cbn [store]. rewrite add_tracking_fresh by exact Hfresh.
    unfold db_remove_tracking, sql_delete. cbn [fst wishlist tracking notify_state].
    by rewrite Hrows. }
  split; [by rewrite Hb2|].
  apply calm_rows_quiet, Forall_forall. intros row Hrow.
  apply (calm_same_states rupees env' b1); [by rewrite Hb2|].
  apply calm_after_rows; [done|]. right.
  unfold db_get_all_tracked in Hrow. rewrite Hb2 in Hrow. cbn [tracking] in Hrow.
  apply elem_of_app in Hrow as [Hrow|Hrow].
  - apply list_elem_of_filter in Hrow as [_ Hrow]. eauto.
  - apply list_elem_of_singleton in Hrow as ->.
    apply list_elem_of_fmap in Hin as (r & Hk & Hr). exists r. split; [done|].
    by rewrite <- Hk.
Qed.

(** ** The further properties at the worked configuration *)

Lemma second_cycle_witness :
  job_check_prices Sample.whole_rupees (Sample.poll Sample.sale10 200)
    (job_check_prices Sample.whole_rupees (Sample.poll Sample.sale10 100)
       Sample.three_games)
  = job_check_prices Sample.whole_rupees (Sample.poll Sample.sale10 100)
      Sample.three_games.
Proof.
  apply (second_cycle_is_silent Sample.whole_rupees
           (Sample.poll Sample.sale10 100) (Sample.poll Sample.sale10 200)
           Sample.three_games).
  intros appid. reflexivity.
Defined.

Lemma steam_down_witness :
  job_check_prices Sample.whole_rupees (Sample.world None true 100) Sample.three_games
  = Sample.three_games.
Proof.
  apply (cycle_without_answers_is_identity Sample.whole_rupees
           (Sample.world None true 100) Sample.three_games).
  intros row _. right. simpl. by case_decide.
Defined.

Lemma item_state_witness :
  db_get_notify_state
    (store (job_check_prices Sample.whole_rupees (Sample.poll Sample.sale10 100)
              Sample.three_games)) 42 "steam" "570"
  = db_get_notify_state
      (store (check_row Sample.whole_rupees (Sample.poll Sample.sale10 100)
                Sample.three_games Sample.dota)) 42 "steam" "570".
Proof.
  apply (item_state_is_its_own_turn Sample.whole_rupees
           (Sample.poll Sample.sale10 100) Sample.three_games Sample.dota).
  - unfold tracking_unique. simpl. apply (bool_decide_unpack _). reflexivity.
  - simpl. left.
Defined.

Lemma no_deal_witness :
  outbox (job_check_prices Sample.whole_rupees (Sample.poll Sample.full_price 200)
            (Sample.with_state 20 (Some 500)))
  = [].
Proof.
  apply (cycle_without_deals_sends_nothing Sample.whole_rupees
           (Sample.poll Sample.full_price 200) (Sample.with_state 20 (Some 500))).
  intros row info Hrow Hf. simpl in Hrow.
  apply list_elem_of_singleton in Hrow as ->. injection Hf as <-.
  split; [simpl; lia|]. intros d l t f Hs Hfp.
  injection Hs as _ <- _. injection Hfp as <-. lia.
Defined.

Lemma keys_stay_unique_witness :
  wishlist_unique
    (store (run_op Sample.whole_rupees
              (AddTracking 42 "steam" "570" (Some "Dota 2") 30) Sample.tracking_dota)) ∧
  tracking_unique
    (store (run_op Sample.whole_rupees
              (AddTracking 42 "steam" "570" (Some "Dota 2") 30) Sample.tracking_dota)).
Proof.
  apply (wishlist_and_tracking_keys_stay_unique Sample.whole_rupees
           (AddTracking 42 "steam" "570" (Some "Dota 2") 30) Sample.tracking_dota).
  - apply NoDup_nil_2.
  - unfold tracking_unique. simpl. apply NoDup_singleton.
Defined.

Lemma add_then_remove_witness :
  db_remove_wishlist (db_add_wishlist db_init 42 "steam" "570" (Some "Dota 2")).1
    42 "steam" "570"
  = (db_init, true).
Proof.
  apply (proj1 (add_then_remove_restores db_init 42 "steam" "570" (Some "Dota 2") 0)).
  apply not_elem_of_nil.
Defined.

Lemma remove_absent_witness :
  db_remove_tracking (store Sample.tracking_dota) 42 "steam" "730"
  = (store Sample.tracking_dota, false).
Proof.
  apply (proj1 (proj2 (remove_takes_out_one_row_or_none
                         (store Sample.tracking_dota) 42 "steam" "730"))).
  simpl. apply (bool_decide_unpack _). reflexivity.
Defined.


Lemma retrack_witness :
  let b1 := job_check_prices Sample.whole_rupees (Sample.poll Sample.sale10 100)
              Sample.tracking_dota in
  let b2 := {| store := (db_add_tracking
                           (db_remove_tracking (store b1) 42 "steam" "570").1
                           42 "steam" "570" (Some "Dota 2") 0).1;
               outbox := outbox b1 |} in
  notify_state (store b2) = notify_state (store b1) ∧
  job_check_prices Sample.whole_rupees (Sample.poll Sample.sale10 200) b2 = b2.
Proof.
  apply (retrack_does_not_reannounce Sample.whole_rupees
           (Sample.poll Sample.sale10 100) (Sample.poll Sample.sale10 200)
           Sample.tracking_dota 42 "steam" "570" (Some "Dota 2") 0).
  - intros appid. reflexivity.
  - simpl. left.
Defined.

(** ** Reading a game out of a command's text *)

Section TextFacts.
Import Stdlib.Strings.Ascii.
Implicit Types (s t text : string) (c : ascii).

Lemma digit_not_space c : is_digit c = true → is_space c = false.
Proof.
  unfold is_digit, is_space. rewrite andb_true_iff, !Nat.leb_le.
  intros [H1 H2]. rewrite orb_false_iff, !andb_false_iff, !Nat.leb_gt. lia.
Qed.

Lemma all_chars_impl (p q : ascii → bool) s :
  (∀ c, p c = true → q c = true) → all_chars p s = true → all_chars q s = true.
Proof.
  intros Hpq. induction s as [|c s IH]; simpl; [done|].
  rewrite !andb_true_iff. intros [Hc Hs]. split; [by apply Hpq | by apply IH].
Qed.

Lemma lstrip_head s c r : lstrip s = String c r → is_space c = false.
Proof.
  induction s as [|a s IH]; simpl; [done|].
  destruct (is_space a) eqn:Ha; [done|]. intros [= <- _]. done.
Qed.

Lemma lstrip_fixed c s : is_space c = false → lstrip (String c s) = String c s.
Proof. intros H. simpl. by rewrite H. Qed.

Lemma lstrip_idem s : lstrip (lstrip s) = lstrip s.
Proof.
  destruct (lstrip s) as [|c r] eqn:E; [done|].
  apply lstrip_fixed. by apply (lstrip_head s c r).
Qed.

Lemma rstrip_idem s : rstrip (rstrip s) = rstrip s.
Proof.
  induction s as [|c s IH]; [done|]. simpl.
  destruct (rstrip s) as [|b r] eqn:E.
  - destruct (is_space c) eqn:Hc; [done|]. simpl. by rewrite Hc.
  - simpl in *. by rewrite IH.
Qed.

Lemma rstrip_head c s : is_space c = false → ∃ r, rstrip (String c s) = String c r.
Proof.
  intros H. simpl. destruct (rstrip s); [rewrite H|]; eauto.
Qed.

Lemma strip_idem s : strip (strip s) = strip s.
Proof.
  unfold strip. destruct (lstrip s) as [|c r] eqn:E; [done|].
  pose proof (lstrip_head s c r E) as Hc.
  destruct (rstrip_head c r Hc) as [r' Hr]. rewrite Hr.
  rewrite lstrip_fixed by done. rewrite <- Hr. apply rstrip_idem.
Qed.

Lemma rstrip_no_space s :
  all_chars (λ c, negb (is_space c)) s = true → rstrip s = s.
Proof.
  induction s as [|c s IH]; simpl; [done|].
  rewrite andb_true_iff, negb_true_iff. intros [Hc Hs].
  rewrite IH by done. destruct s; [by rewrite Hc | done].
Qed.

Lemma strip_digits s : all_chars is_digit s = true → strip s = s.
Proof.
  intros H. unfold strip.
  assert (Hl : lstrip s = s).
  { destruct s as [|c s]; [done|]. simpl in H. apply andb_true_iff in H as [Hc _].
    apply lstrip_fixed. by apply digit_not_space. }
  rewrite Hl. apply rstrip_no_space.
  apply (all_chars_impl is_digit); [|done].
  intros c Hc. by rewrite (digit_not_space c Hc).
Qed.

Lemma take_digits_digits s : all_chars is_digit (take_digits s) = true.
Proof.
  induction s as [|c s IH]; simpl; [done|].
  destruct (is_digit c) eqn:Hc; simpl; [by rewrite Hc | done].
Qed.

Lemma take_digits_all s : all_chars is_digit s = true → take_digits s = s.
Proof.
  induction s as [|c s IH]; simpl; [done|].
  rewrite andb_true_iff. intros [-> Hs]. by rewrite IH.
Qed.

(** Whatever [re_search] returns was matched at some position. *)
Lemma re_search_Some (here : string → option string) (P : string → Prop) s m :
  (∀ t m, here t = Some m → P m) → re_search here s = Some m → P m.
Proof.
  intros Hhere. induction s as [|c s IH]; simpl.
  - destruct (here "") eqn:E; [|done]. intros [= <-]. by apply (Hhere "").
  - destruct (here (String c s)) eqn:E; [|done]. intros [= <-]. by apply (Hhere _ _ E).
Qed.

Lemma app_url_here_digits t m :
  app_url_here t = Some m → m ≠ "" ∧ all_chars is_digit m = true.
Proof.
  unfold app_url_here. destruct (strip_prefix _ t) as [rest|]; [|done].
  pose proof (take_digits_digits rest) as Hd.
  destruct (take_digits rest); [done|]. intros [= <-]. done.
Qed.

Lemma paren_id_here_digits t m :
  paren_id_here t = Some m → m ≠ "" ∧ all_chars is_digit m = true.
Proof.
  unfold paren_id_here. destruct t as [|c rest]; [done|].
  destruct (decide (c = "("%char)) as [->|Hc].
  - pose proof (take_digits_digits rest) as Hd.
    destruct (_ && _ && _) eqn:E; [|done]. intros [= <-]. split; [|done].
    apply andb_true_iff in E as [E _]. apply andb_true_iff in E as [E _].
    apply Nat.leb_le in E. intros Hm. rewrite Hm in E. simpl in E. lia.
  - by destruct c as [[] [] [] [] [] [] [] []].
Qed.

(** A text of digits holds no store URL. *)
Lemma no_app_url_in_digits s :
  all_chars is_digit s = true → re_search app_url_here s = None.
Proof.
  induction s as [|c s IH]; [done|]. simpl.
  rewrite andb_true_iff. intros [Hc Hs].
  assert (Hhere : app_url_here (String c s) = None).
  { unfold app_url_here. simpl. case_decide as E; [|done].
    subst c. done. }
  rewrite Hhere. by apply IH.
Qed.

Lemma parse_digits s :
  s ≠ "" → all_chars is_digit s = true → parse_steam_appid s = Some s.
Proof.
  intros Hne Hd. unfold parse_steam_appid. rewrite strip_digits by done.
  rewrite no_app_url_in_digits by done.
  unfold isdigit. rewrite Hd. by destruct s.
Qed.

Lemma parse_result text appid :
  parse_steam_appid text = Some appid →
  appid ≠ "" ∧ all_chars is_digit appid = true.
Proof.
  unfold parse_steam_appid.
  destruct (re_search app_url_here (strip text)) as [m|] eqn:E1.
  - intros [= <-].
    exact (re_search_Some app_url_here (λ m, m ≠ "" ∧ all_chars is_digit m = true)
             _ _ app_url_here_digits E1).
  - destruct (isdigit (strip text)) eqn:E2.
    + intros [= <-]. unfold isdigit in E2. by destruct (strip text).
    + exact (re_search_Some paren_id_here
               (λ m, m ≠ "" ∧ all_chars is_digit m = true) _ _ paren_id_here_digits).
Qed.

Lemma parse_strip text : parse_steam_appid (strip text) = parse_steam_appid text.
Proof. unfold parse_steam_appid. by rewrite strip_idem. Qed.

(** [normalize_identifier] in terms of [parse_steam_appid]. *)
Lemma normalize_parse text :
  text ≠ "" →
  normalize_identifier text =
  match parse_steam_appid text with
  | Some appid => (Some "steam", Some appid)
  | None => (Some "other", Some (strip text))
  end.
Proof.
  intros Hne. unfold normalize_identifier. rewrite parse_strip.
  destruct text as [|c text]; [done|].
  destruct (parse_steam_appid _) as [appid|] eqn:E; [|done].
  apply parse_result in E as [Ha _]. by destruct appid.
Qed.

(** X14. An AppID read out of a text is a non-empty string of digits, and
    given back as a text it is read as itself: the identifier under which a
    game is stored names the same key when it is typed again. *)
Theorem appid_is_canonical text appid :
  ascii_text text →
  parse_steam_appid text = Some appid →
  appid ≠ "" ∧ all_chars is_digit appid = true ∧
  parse_steam_appid appid = Some appid ∧
  normalize_identifier appid = (Some "steam", Some appid).
Proof.
  intros _ Hp. destruct (parse_result text appid Hp) as [Hne Hd].
  split_and!; [done | done | by apply parse_digits |].
  rewrite normalize_parse by done. by rewrite parse_digits.
Qed.

(** X15. What [normalize_identifier] can return: nothing for the empty
    text; platform [steam] with the AppID when the text holds one; and
    otherwise platform [other] with the text stripped of the whitespace
    around it. *)
Theorem normalize_identifier_cases text :
  ascii_text text →
  (text = "" ∧ normalize_identifier text = (None, None)) ∨
  (∃ appid, text ≠ "" ∧ parse_steam_appid text = Some appid ∧
            appid ≠ "" ∧ all_chars is_digit appid = true ∧
            normalize_identifier text = (Some "steam", Some appid)) ∨
  (text ≠ "" ∧ parse_steam_appid text = None ∧
   normalize_identifier text = (Some "other", Some (strip text))).
Proof.
  intros _. destruct (decide (text = "")) as [->|Hne]; [by left|]. right.
  rewrite normalize_parse by done.
  destruct (parse_steam_appid text) as [appid|] eqn:E; [left | by right].
  exists appid. destruct (parse_result text appid E). done.
Qed.
End TextFacts.

(** ** Store URLs *)

Section UrlFacts.
Import Stdlib.Strings.Ascii.
Implicit Types (s t d rest : string) (c : ascii).

Lemma append_cons c s t : String c s +:+ t = String c (s +:+ t).
Proof. reflexivity. Qed.



Lemma all_chars_append p s t :
  all_chars p (s +:+ t) = all_chars p s && all_chars p t.
Proof.
  induction s as [|c s IH]; [done|]. rewrite append_cons. simpl.
  by rewrite IH, andb_assoc.
Qed.




End UrlFacts.

(** ** The commands *)



















(** ** The commands at the worked configuration *)

Lemma appid_canonical_witness :
  "570" ≠ "" ∧ all_chars is_digit "570" = true ∧
  parse_steam_appid "570" = Some "570" ∧
  normalize_identifier "570" = (Some "steam", Some "570").
Proof.
  exact (appid_is_canonical "Dota 2 (570)" "570" eq_refl eq_refl).
Defined.

Lemma normalize_cases_witness :
  ("Half-Life" = "" ∧ normalize_identifier "Half-Life" = (None, None)) ∨
  (∃ appid, "Half-Life" ≠ "" ∧ parse_steam_appid "Half-Life" = Some appid ∧
            appid ≠ "" ∧ all_chars is_digit appid = true ∧
            normalize_identifier "Half-Life" = (Some "steam", Some appid)) ∨
  ("Half-Life" ≠ "" ∧ parse_steam_appid "Half-Life" = None ∧
   normalize_identifier "Half-Life" = (Some "other", Some (strip "Half-Life"))).
Proof.
  exact (normalize_identifier_cases "Half-Life" eq_refl).
Defined.






(** ** Who gets alerts *)

Section Alerts.
Variable rupees : option Z → string.





End Alerts.


(** ** An AppID in parentheses after a name *)

Section ParenFacts.
Import Stdlib.Strings.Ascii.
Implicit Types (s t a b d : string) (c : ascii).

Lemma length_append s t :
  String.length (s +:+ t) = (String.length s + String.length t)%nat.
Proof. induction s as [|c s IH]; [done|]. rewrite append_cons. simpl. by rewrite IH. Qed.

Lemma lstrip_append a c b :
  is_space c = false → lstrip (a +:+ String c b) = lstrip a +:+ String c b.
Proof.
  intros Hc. induction a as [|x a IH]; [by apply lstrip_fixed|].
  rewrite append_cons. simpl. destruct (is_space x); [done|]. by rewrite append_cons.
Qed.

Lemma rstrip_append_end a b :
  b ≠ "" → rstrip b = b → rstrip (a +:+ b) = a +:+ b.
Proof.
  intros Hne Hb. induction a as [|x a IH]; [done|].
  rewrite append_cons. simpl. rewrite IH.
  destruct (a +:+ b) eqn:E; [|done]. destruct a; [done|]. by rewrite append_cons in E.
Qed.

Lemma re_search_cons here c s :
  re_search here (String c s)
  = match here (String c s) with
    | Some m => Some m
    | None => re_search here s
    end.
Proof. reflexivity. Qed.

(** The suffixes of a text with no match have no match. *)
Lemma re_search_None_tail here c s :
  re_search here (String c s) = None → re_search here s = None.
Proof. simpl. by destruct (here (String c s)). Qed.

Lemma re_search_None_lstrip here s :
  re_search here s = None → re_search here (lstrip s) = None.
Proof.
  induction s as [|c s IH]; [done|]. intros H. simpl.
  destruct (is_space c); [|done]. by apply IH, (re_search_None_tail here c).
Qed.

Lemma re_search_None_here here s : re_search here s = None → here s = None.
Proof. destruct s; simpl; by destruct (here _). Qed.

(** A pattern without [(] that does not start [x] does not start [x]
    followed by a text that begins with [(]. *)
Lemma strip_prefix_None_append p x t :
  all_chars (λ c, negb (bool_decide (c = "("%char))) p = true →
  strip_prefix p x = None → strip_prefix p (x +:+ String "(" t) = None.
Proof.
  revert x. induction p as [|a p IH]; intros x Hp; [done|].
  simpl in Hp. apply andb_true_iff in Hp as [Ha Hp].
  apply negb_true_iff, bool_decide_eq_false in Ha.
  destruct x as [|b x].
  - intros _. change ("" +:+ String "(" t) with (String "("%char t). simpl.
    by rewrite decide_False.
  - rewrite append_cons. simpl. case_decide; [by apply IH | done].
Qed.

Lemma strip_prefix_Some_append p x rest t :
  strip_prefix p x = Some rest → strip_prefix p (x +:+ t) = Some (rest +:+ t).
Proof.
  revert x. induction p as [|a p IH]; intros x; simpl.
  - by intros [= ->].
  - destruct x as [|b x]; [done|]. rewrite append_cons. simpl.
    case_decide; [apply IH | done].
Qed.

Lemma take_digits_empty_append rest t :
  take_digits rest = "" → take_digits (rest +:+ String "(" t) = "".
Proof.
  destruct rest as [|c rest]; [done|]. rewrite append_cons. simpl.
  by destruct (is_digit c).
Qed.

Lemma app_url_here_None_append x t :
  app_url_here x = None → app_url_here (x +:+ String "(" t) = None.
Proof.
  unfold app_url_here.
  destruct (strip_prefix _ x) as [rest|] eqn:E.
  - rewrite (strip_prefix_Some_append _ _ _ _ E).
    destruct (take_digits rest) eqn:Hd; [|done]. intros _.
    by rewrite take_digits_empty_append.
  - intros _. by rewrite strip_prefix_None_append.
Qed.

(** A text without the letter [s] holds no store URL. *)
Lemma no_app_url_without_s s :
  all_chars (λ c, negb (bool_decide (c = "s"%char))) s = true →
  re_search app_url_here s = None.
Proof.
  induction s as [|c s IH]; [done|]. simpl.
  rewrite andb_true_iff, negb_true_iff, bool_decide_eq_false. intros [Hc Hs].
  unfold app_url_here at 1. simpl. rewrite decide_False by congruence. by apply IH.
Qed.

Lemma digits_without_s d :
  all_chars is_digit d = true →
  all_chars (λ c, negb (bool_decide (c = "s"%char))) d = true.
Proof.
  apply all_chars_impl. intros c Hc. apply negb_true_iff, bool_decide_eq_false.
  by intros ->.
Qed.

Lemma no_app_url_append a d :
  all_chars is_digit d = true →
  re_search app_url_here a = None →
  re_search app_url_here (a +:+ String "(" (d +:+ ")")) = None.
Proof.
  intros Hd. induction a as [|c a IH]; intros Ha.
  - apply no_app_url_without_s. change ("" +:+ ?x) with x. simpl.
    rewrite all_chars_append, digits_without_s by done. done.
  - pose proof (re_search_None_here _ _ Ha) as Hhere.
    apply re_search_None_tail in Ha.
    rewrite append_cons. simpl. rewrite <- append_cons.
    rewrite app_url_here_None_append by done. by apply IH.
Qed.

Lemma drop_digits_length a b :
  (S (String.length b) ≤ String.length (drop_digits (a +:+ String "(" b)))%nat.
Proof.
  induction a as [|c a IH]; [done|]. rewrite append_cons. simpl.
  destruct (is_digit c); [done|]. simpl. rewrite length_append. simpl. lia.
Qed.

Lemma take_drop_digits d t :
  all_chars is_digit d = true →
  take_digits (d +:+ String ")" t) = d ∧ drop_digits (d +:+ String ")" t) = String ")" t.
Proof.
  induction d as [|c d IH]; [done|]. rewrite append_cons. simpl.
  rewrite andb_true_iff. intros [-> Hd]. destruct (IH Hd) as [-> ->]. done.
Qed.

Lemma paren_id_here_inside c a d :
  paren_id_here (String c (a +:+ String "(" (d +:+ ")"))) = None.
Proof.
  unfold paren_id_here. destruct (decide (c = "("%char)) as [->|Hc].
  - rewrite bool_decide_eq_false_2; [by rewrite andb_false_r|].
    intros E. pose proof (drop_digits_length a (d +:+ ")")) as Hlen.
    rewrite E, length_append in Hlen. simpl in Hlen. lia.
  - by destruct c as [[] [] [] [] [] [] [] []].
Qed.

Lemma no_paren_id_without_paren s :
  all_chars (λ c, negb (bool_decide (c = "("%char))) s = true →
  re_search paren_id_here s = None.
Proof.
  induction s as [|c s IH]; [done|]. simpl.
  rewrite andb_true_iff, negb_true_iff, bool_decide_eq_false. intros [Hc Hs].
  rewrite IH by done. by destruct c as [[] [] [] [] [] [] [] []].
Qed.

Lemma paren_id_search a d :
  all_chars is_digit d = true →
  re_search paren_id_here (a +:+ String "(" (d +:+ ")"))
  = if (3 <=? String.length d)%nat && (String.length d <=? 7)%nat
    then Some d else None.
Proof.
  intros Hd. induction a as [|c a IH].
  - change ("" +:+ ?x) with x. simpl.
    destruct (take_drop_digits d "" Hd) as [-> ->].
    rewrite bool_decide_eq_true_2 by done. rewrite andb_true_r.
    destruct (_ && _); [done|].
    apply no_paren_id_without_paren. rewrite all_chars_append. simpl.
    rewrite andb_true_r. apply (all_chars_impl is_digit); [|done].
    intros c Hc. apply negb_true_iff, bool_decide_eq_false. by intros ->.
  - rewrite append_cons, re_search_cons. by rewrite paren_id_here_inside.
Qed.

(** X22. A name that holds no store URL, followed by digits in parentheses
    at the very end, is read as that AppID exactly when there are three to
    seven digits; with fewer or more the text names no Steam game. *)
Theorem paren_id_needs_three_to_seven_digits name d :
  ascii_text name →
  all_chars is_digit d = true →
  re_search app_url_here name = None →
  parse_steam_appid (name +:+ "(" +:+ d +:+ ")")
  = if (3 <=? String.length d)%nat && (String.length d <=? 7)%nat
    then Some d else None.
Proof.
  intros _ Hd Hurl. unfold parse_steam_appid, strip.
  change ("(" +:+ d +:+ ")") with (String "(" (d +:+ ")")).
  rewrite lstrip_append by done.
  assert (Hend : rstrip (String "(" (d +:+ ")")) = String "(" (d +:+ ")")).
  { apply rstrip_no_space. simpl. rewrite all_chars_append. simpl.
    rewrite andb_true_r. apply (all_chars_impl is_digit); [|done].
    intros c Hc. by rewrite (digit_not_space c Hc). }
  rewrite rstrip_append_end by done.
  rewrite no_app_url_append by (done || by apply re_search_None_lstrip).
  assert (Hnd : isdigit (lstrip name +:+ String "(" (d +:+ ")")) = false).
  { assert (Hall : all_chars is_digit (lstrip name +:+ String "(" (d +:+ ")")) = false)
      by (rewrite all_chars_append; simpl; by rewrite andb_false_r).
    unfold isdigit. rewrite Hall. by destruct (lstrip name +:+ String "(" (d +:+ ")")). }
  rewrite Hnd. by apply paren_id_search.
Qed.
End ParenFacts.

Lemma paren_id_witness :
  parse_steam_appid ("Dota 2 " +:+ "(" +:+ "570" +:+ ")") = Some "570" ∧
  parse_steam_appid ("Dota 2 " +:+ "(" +:+ "57" +:+ ")") = None.
Proof.
  split.
  - exact (paren_id_needs_three_to_seven_digits "Dota 2 " "570" eq_refl eq_refl eq_refl).
  - exact (paren_id_needs_three_to_seven_digits "Dota 2 " "57" eq_refl eq_refl eq_refl).
Defined.
